(** * writers-corner: the scene-plan converter and the word-frequency aggregator

    A shallow embedding of [scripts/excel_to_markdown.py] (functions
    [parse_scenes], [generate_markdown_content], [add_metadata],
    [write_markdown] and the part of [main] that chains them) and of
    [scripts/common_words.py] (function [read_csv_files]).

    Python values are embedded as follows.
    - A spreadsheet cell is a text ([str]) or a whole number ([int]); floats,
      the empty-cell marker and timestamps are outside the model.
    - A [dict] whose iteration order is observable is an association list in
      insertion order.
    - [print], [logging], the clock and the file system are an explicit
      [world] threaded through the effectful functions; an exception is the
      [Raise] result. *)

From Stdlib Require Import String Ascii List ZArith Lia Bool Arith DecimalString.
From Stdlib Require Import Sorted Permutation.
Import ListNotations.

Local Open Scope list_scope.
Local Open Scope string_scope.

(** ** Python strings *)

Module PyStr.

(** The one-character string [\n]. *)
Definition nl : string := String (ascii_of_nat 10) EmptyString.

(** [str(n)] for a non-negative [int]. *)
Definition dec (n : nat) : string := NilZero.string_of_uint (Nat.to_uint n).

(** [str(z)] for an [int]. *)
Definition decZ (z : Z) : string := NilZero.string_of_int (Z.to_int z).

(** [sub in s]. *)
Fixpoint contains (sub s : string) : bool :=
  prefix sub s ||
  match s with
  | EmptyString => false
  | String _ s' => contains sub s'
  end.

(** The scan behind [s.split(sep)] for a non-empty [sep]: the text is read
    left to right; [skip] counts the characters of an already recognised
    separator that are still to be passed over.  The result is the piece
    in progress and the pieces after it. *)
Fixpoint split_from (sep : string) (skip : nat) (s : string)
  : string * list string :=
  match s with
  | EmptyString => (EmptyString, [])
  | String c s' =>
      match skip with
      | S k => split_from sep k s'
      | O =>
          if prefix sep s
          then let '(p, ps) := split_from sep (String.length sep - 1) s' in
               (EmptyString, p :: ps)
          else let '(p, ps) := split_from sep 0 s' in
               (String c p, ps)
      end
  end.

(** [s.split(sep)], [sep] non-empty. *)
Definition split (sep s : string) : list string :=
  let '(p, ps) := split_from sep 0 s in p :: ps.

(** [sep.join(parts)]. *)
Definition join (sep : string) (parts : list string) : string :=
  String.concat sep parts.

(** The text obtained by appending the pieces in order. *)
Definition concat_all (pieces : list string) : string :=
  fold_right append EmptyString pieces.

(** [s.endswith(suffix)]. *)
Definition endswith (s suffix : string) : bool :=
  let n := String.length s in
  let m := String.length suffix in
  (m <=? n)%nat && String.eqb (substring (n - m) m s) suffix.

End PyStr.
Import PyStr.

(** ** The scene-plan converter, [scripts/excel_to_markdown.py] *)

Module Excel.

(** *** Values, exceptions, results *)

(** What [row["..."]] yields: a text or a whole number. *)
Inductive cell : Type :=
| Str (s : string)
| Int (z : Z).

(** Python's [==] on these values, which is also what a [dict] compares
    keys with: a text never equals a number. *)
Definition cell_eqb (a b : cell) : bool :=
  match a, b with
  | Str s, Str t => String.eqb s t
  | Int x, Int y => Z.eqb x y
  | _, _ => false
  end.

(** [f"{c}"]. *)
Definition fmt (c : cell) : string :=
  match c with
  | Str s => s
  | Int z => decZ z
  end.

Inductive exn : Type :=
| KeyError (key : string)
| IndexError (msg : string)
| AttributeError (msg : string)
| TypeError (msg : string)
| UnboundLocalError (msg : string)
| OSError (msg : string).

(** [f"{e}"] for a caught exception. *)
Definition exn_str (e : exn) : string :=
  match e with
  | KeyError key => "'" ++ key ++ "'"
  | IndexError msg | AttributeError msg | TypeError msg
  | UnboundLocalError msg | OSError msg => msg
  end.

Inductive result (A : Type) : Type :=
| Ok (a : A)
| Raise (e : exn).
Arguments Ok {A} a.
Arguments Raise {A} e.

Definition bind {A B : Type} (r : result A) (k : A -> result B) : result B :=
  match r with
  | Ok a => k a
  | Raise e => Raise e
  end.

Notation "'let?' x ':=' r 'in' k" := (bind r (fun x => k))
  (at level 10, x name, r at level 100, k at level 200).

(** [xs[i]]. *)
Definition index {A : Type} (xs : list A) (i : nat) : result A :=
  match nth_error xs i with
  | Some x => Ok x
  | None => Raise (IndexError "list index out of range")
  end.

(** *** Rows and chapter aggregates *)

(** One row of the data frame: column label and cell, in column order. *)
Definition row : Type := list (string * cell).

(** [row[label]]. *)
Fixpoint row_get (label : string) (r : row) : result cell :=
  match r with
  | [] => Raise (KeyError label)
  | (l, c) :: r' => if String.eqb label l then Ok c else row_get label r'
  end.

(** The per-chapter [dict] of line 110, one field per key; the key
    ['temperature'] is absent until line 122 sets it. *)
Record chapter_data : Type := mk_chapter_data {
  scenes : list nat;
  settings : list cell;
  scene_counter : nat;
  day : list cell;
  POV : cell;
  description : cell;
  time : list cell;
  weather : list cell;
  descriptions : list cell;
  uniform : list cell;
  arc : cell;
  week : list cell;
  temperature : option cell
}.

(** The literal of line 110. *)
Definition new_chapter : chapter_data :=
  {| scenes := []; settings := []; scene_counter := 1; day := [];
     POV := Str ""; description := Str ""; time := []; weather := [];
     descriptions := []; uniform := []; arc := Int 1; week := [];
     temperature := None |}.

(** The [chapters] dict: chapter key to aggregate, in insertion order. *)
Definition chapters : Type := list (cell * chapter_data).

(** [chapters.get(k)]; [None] is [k not in chapters]. *)
Fixpoint dict_get (k : cell) (d : chapters) : option chapter_data :=
  match d with
  | [] => None
  | (k', v) :: d' => if cell_eqb k k' then Some v else dict_get k d'
  end.

(** In-place change of the value stored under [k]. *)
Fixpoint dict_update (k : cell) (f : chapter_data -> chapter_data)
         (d : chapters) : chapters :=
  match d with
  | [] => []
  | (k', v) :: d' =>
      if cell_eqb k k' then (k', f v) :: d'
      else (k', v) :: dict_update k f d'
  end.

(** Lines 109-110. *)
Definition ensure_chapter (k : cell) (d : chapters) : chapters :=
  match dict_get k d with
  | None => (d ++ [(k, new_chapter)])%list
  | Some _ => d
  end.

(** Lines 112-123 on the aggregate of the row's chapter. *)
Definition add_scene (week_ arc_ setting uniform_ time_ weather_ day_
                      description_ pov temp : cell)
           (c : chapter_data) : chapter_data :=
  {| scenes := (scenes c ++ [scene_counter c])%list;
     arc := arc_;
     scene_counter := scene_counter c + 1;
     day := (day c ++ [day_])%list;
     settings := (settings c ++ [setting])%list;
     uniform := (uniform c ++ [uniform_])%list;
     weather := (weather c ++ [weather_])%list;
     time := (time c ++ [time_])%list;
     descriptions := (descriptions c ++ [description_])%list;
     POV := pov;
     temperature := Some temp;
     week := (week c ++ [week_])%list;
     description := description c |}.

(** The body of the loop of [parse_scenes], lines 97-123. *)
Definition parse_row (r : row) (d : chapters) : result chapters :=
  let? week_ := row_get "Week" r in
  let? arc_ := row_get "Arc" r in
  let? chapter := row_get "Chapter" r in
  let? setting := row_get "Location" r in
  let? uniform_ := row_get "Uniform" r in
  let? time_ := row_get "Time" r in
  let? weather_ := row_get "Weather" r in
  let? day_ := row_get "Day" r in
  let? description_ := row_get "Description" r in
  let? pov := row_get "POV" r in
  let? temp := row_get "Temperature" r in
  Ok (dict_update chapter
        (add_scene week_ arc_ setting uniform_ time_ weather_ day_
                   description_ pov temp)
        (ensure_chapter chapter d)).

(** The loop of line 96, from the dict [d] built so far. *)
Fixpoint parse_rows (df : list row) (d : chapters) : result chapters :=
  match df with
  | [] => Ok d
  | r :: df' => let? d' := parse_row r d in parse_rows df' d'
  end.

(** *** The world: log, console, clock and disk *)

Inductive event : Type :=
| LogInfo (msg : string)
| LogError (msg : string)
| Print (msg : string)
| MakeDirs (dir : string)
| FileWritten (path content : string)
| FileFailed (path content : string) (e : exn).

Record world : Type := mk_world {
  dirs : list string;      (* paths [os.path.exists] answers yes for *)
  ticks : nat;             (* readings of the clock so far *)
  trace : list event       (* what happened, oldest first *)
}.

(** What the run cannot decide by itself. *)
Record env : Type := mk_env {
  now : nat -> string;     (* the formatted time at the n-th reading *)
  script : string;         (* [os.path.basename(__file__)] *)
  makedirs_err : string -> option exn;   (* by directory *)
  write_err : string -> string -> option exn   (* by path and content *)
}.

Definition emit (ev : event) (w : world) : world :=
  {| dirs := dirs w; ticks := ticks w; trace := (trace w ++ [ev])%list |}.

Definition mkdir (dir : string) (w : world) : world :=
  {| dirs := dir :: dirs w; ticks := ticks w;
     trace := (trace w ++ [MakeDirs dir])%list |}.

Definition tick (w : world) : world :=
  {| dirs := dirs w; ticks := S (ticks w); trace := trace w |}.

(** [f"{num_rows}"]: [get_number_of_rows] returns a count or [None]. *)
Definition fmt_count (n : option nat) : string :=
  match n with
  | Some k => dec k
  | None => "None"
  end.

(** [parse_scenes], lines 90-131; [None] is the implicit return of the
    [except] branch. *)
Definition parse_scenes (df : list row) (num_rows : option nat) (w : world)
  : option chapters * world :=
  let w := emit (LogInfo ("Parsing " ++ fmt_count num_rows ++ " scenes.")) w in
  match parse_rows df [] with
  | Ok d =>
      (Some d,
       emit (LogInfo ("Successfully parsed " ++ fmt_count num_rows
                      ++ " scenes into " ++ dec (List.length d)
                      ++ " chapters.")) w)
  | Raise e =>
      let msg := "Error: An error occurred while parsing scenes: " ++ exn_str e in
      (None, emit (LogError msg) (emit (Print msg) w))
  end.

(** *** Rendering *)

(** [add_metadata], lines 199-208; reads the clock once. *)
Definition add_metadata (e : env) (markdown_content : string)
           (arc_ pov : cell) (tags : string) (w : world) : string * world :=
  (markdown_content
     ++ "---" ++ nl
     ++ "created: " ++ now e (ticks w) ++ nl
     ++ "generated_by: " ++ script e ++ nl
     ++ "tags: " ++ tags ++ nl
     ++ "POV: " ++ fmt pov ++ nl
     ++ "Arc: " ++ fmt arc_ ++ nl
     ++ "---" ++ nl ++ nl,
   tick w).

(** The two kinds of line the setting block is made of. *)
Inductive bullet : Type :=
| Major (loc : string)
| Minor (loc : string).

(** Lines 183 and 188. *)
Definition render_bullet (b : bullet) : string :=
  match b with
  | Major loc => " - " ++ loc ++ nl
  | Minor loc => "     - " ++ loc ++ nl
  end.

(** Lines 181-188 for one [subpart]: the part before the first [" - "] is
    the major location, every later part is cut at [", "]. *)
Definition subpart_bullets (subpart : string) : list bullet :=
  match split " - " subpart with
  | [] => []
  | major_loc :: rest =>
      Major major_loc :: flat_map (fun p => map Minor (split ", " p)) rest
  end.

(** Lines 178-188: the bullets appended for one location text.  The inner
    loop of line 184 reuses the name [i]; the scene loop reads [i] only
    before that and takes its next value from its own range. *)
Definition setting_bullets (location : string) : list bullet :=
  flat_map subpart_bullets (split ". " location).

(** The text of those bullets. *)
Definition setting_block (location : string) : string :=
  concat_all (map render_bullet (setting_bullets location)).

(** [settings[i].split(". ")] and what follows; only a text has [split]. *)
Definition render_setting (setting : cell) : result string :=
  match setting with
  | Str s => Ok (setting_block s)
  | Int _ => Raise (AttributeError "'int' object has no attribute 'split'")
  end.

(** Lines 166-176: heading and labelled fields of scene [scene_number]. *)
Definition scene_fields (pov temp : cell) (scene_number : nat)
           (time_ day_ week_ weather_ uniform_ description_ : cell) : string :=
  "### Scene " ++ dec scene_number ++ nl ++ nl
    ++ " - POV: " ++ fmt pov ++ nl
    ++ " - Date and Time: " ++ fmt time_ ++ nl
    ++ " - Day: " ++ fmt day_ ++ nl
    ++ " - Week: " ++ fmt week_ ++ nl
    ++ " - Temperature: " ++ fmt temp ++ nl
    ++ " - Weather: " ++ fmt weather_ ++ nl
    ++ " - Uniform: " ++ fmt uniform_ ++ nl ++ nl
    ++ " - Description: " ++ fmt description_ ++ nl ++ nl
    ++ " #### Setting:" ++ nl.

(** Lines 164-190: everything appended for index [i]. *)
Definition render_scene (c : chapter_data) (pov temp : cell) (i : nat)
  : result string :=
  let scene_number := i + 1 in
  let? time_ := index (time c) i in
  let? day_ := index (day c) i in
  let? week_ := index (week c) i in
  let? weather_ := index (weather c) i in
  let? uniform_ := index (uniform c) i in
  let? description_ := index (descriptions c) i in
  let? setting := index (settings c) i in
  let? block := render_setting setting in
  Ok (scene_fields pov temp scene_number
                   time_ day_ week_ weather_ uniform_ description_
        ++ block ++ nl).

(** The loop of line 163 over the indices [idx]; the second component is
    the local variable [scene_number] as the loop leaves it ([None] while
    it has never been assigned). *)
Fixpoint render_scenes (c : chapter_data) (pov temp : cell) (idx : list nat)
         (scene_number : option nat) : result string * option nat :=
  match idx with
  | [] => (Ok "", scene_number)
  | i :: idx' =>
      match render_scene c pov temp i with
      | Raise ex => (Raise ex, Some (i + 1))
      | Ok text =>
          match render_scenes c pov temp idx' (Some (i + 1)) with
          | (Ok more, sn) => (Ok (text ++ more), sn)
          | (Raise ex, sn) => (Raise ex, sn)
          end
      end
  end.

(** Lines 142-190 for one chapter: the document text, the value of
    [scene_number] afterwards, and the world (the clock may have been
    read).  [tags] is [None] when the caller passed Python's [None]. *)
Definition chapter_document (e : env) (tags : option (list string))
           (am : bool) (chapter_key : cell) (chapter_data_ : chapter_data)
           (scene_number : option nat) (w : world)
  : result string * option nat * world :=
  let header :=
    if am then
      match tags with
      | Some tl =>
          let '(md, w') := add_metadata e "" (arc chapter_data_)
                                        (POV chapter_data_) (join ", " tl) w in
          (Ok md, w')
      | None => (Raise (TypeError "can only join an iterable"), w)
      end
    else (Ok "", w) in
  match header with
  | (Raise ex, w') => (Raise ex, scene_number, w')
  | (Ok md, w') =>
      match temperature chapter_data_ with
      | None => (Raise (KeyError "temperature"), scene_number, w')
      | Some temp =>
          match render_scenes chapter_data_ (POV chapter_data_) temp
                              (seq 0 (List.length (scenes chapter_data_)))
                              scene_number with
          | (Raise ex, sn) => (Raise ex, sn, w')
          | (Ok body, sn) =>
              (Ok (md ++ "# Chapter " ++ fmt chapter_key ++ nl
                      ++ "## Scenes" ++ nl ++ body), sn, w')
          end
      end
  end.

(** The path of line 217. *)
Definition md_path (output_dir file_path : string) : string :=
  "./" ++ output_dir ++ "/" ++ file_path ++ ".md".

(** The file as the log messages of [write_markdown] name it. *)
Definition shown_path (output_dir file_path : string) : string :=
  "'/" ++ output_dir ++ "/" ++ file_path ++ ".md'".

(** The message of lines 221-222. *)
Definition save_error (output_dir file_path : string) (ex : exn) : string :=
  "Error: An error occurred while saving the file "
    ++ shown_path output_dir file_path ++ ": " ++ exn_str ex.

(** [write_markdown], lines 210-222.  [os.makedirs] is outside the [try]:
    its exception leaves the function; a failure of [open] or of
    [file.write] is caught, logged and printed. *)
Definition write_markdown (e : env) (file_path output_dir content : string)
           (w : world) : result unit * world :=
  let shown := shown_path output_dir file_path in
  let w := emit (LogInfo ("Writing .md file at " ++ shown)) w in
  let made :=
    if existsb (String.eqb output_dir) (dirs w) then Ok w
    else match makedirs_err e output_dir with
         | Some ex => Raise ex
         | None => Ok (mkdir output_dir w)
         end in
  match made with
  | Raise ex => (Raise ex, w)
  | Ok w =>
      let path := md_path output_dir file_path in
      match write_err e path content with
      | None =>
          (Ok tt,
           emit (LogInfo ("Markdown file saved successfully: " ++ shown))
                (emit (FileWritten path content) w))
      | Some ex =>
          let msg := save_error output_dir file_path ex in
          (Ok tt,
           emit (Print msg)
                (emit (LogError msg) (emit (FileFailed path content ex) w)))
      end
  end.

(** How the loop of line 140 ends: it runs out of chapters, or an
    exception leaves it with the locals the handler will read. *)
Inductive loop_end : Type :=
| Done
| Failed (ex : exn) (chapter_key : cell) (scene_number : option nat).

Definition unbound_scene_number : exn :=
  UnboundLocalError
    "cannot access local variable 'scene_number' where it is not associated with a value".

(** The loop of lines 140-194 over [chapters.items()]. *)
Fixpoint chapters_loop (e : env) (tags : option (list string))
         (output_dir : string) (am : bool) (items : chapters)
         (scene_number : option nat) (w : world) : loop_end * world :=
  match items with
  | [] => (Done, w)
  | (chapter_key, chapter_data_) :: items' =>
      match chapter_document e tags am chapter_key chapter_data_
                             scene_number w with
      | (Raise ex, sn, w) => (Failed ex chapter_key sn, w)
      | (Ok markdown_content, None, w) =>
          (Failed unbound_scene_number chapter_key None, w)
      | (Ok markdown_content, Some n, w) =>
          let w := emit (LogInfo ("Chapter " ++ fmt chapter_key ++ ", Scene "
                                    ++ dec n ++ " created.")) w in
          match write_markdown e ("Chapter " ++ fmt chapter_key) output_dir
                               markdown_content w with
          | (Raise ex, w) => (Failed ex chapter_key (Some n), w)
          | (Ok _, w) =>
              chapters_loop e tags output_dir am items' (Some n) w
          end
      end
  end.

(** [generate_markdown_content], lines 133-197.  [chapters] is [None] when
    [parse_scenes] returned nothing; [len(None)] on line 136 is outside
    the [try].  The handler formats [scene_number]: when that name was
    never assigned, the handler itself raises. *)
Definition generate_markdown_content (e : env) (chapters_ : option chapters)
           (tags : option (list string)) (output_dir : string) (am : bool)
           (w : world) : result unit * world :=
  match chapters_ with
  | None => (Raise (TypeError "object of type 'NoneType' has no len()"), w)
  | Some d =>
      let w := emit (LogInfo ("Generating .md markdown files for "
                                ++ dec (List.length d) ++ " chapters.")) w in
      match chapters_loop e tags output_dir am d None w with
      | (Done, w) => (Ok tt, w)
      | (Failed ex chapter_key None, w) => (Raise unbound_scene_number, w)
      | (Failed ex chapter_key (Some n), w) =>
          let msg := "Error: An error occured while parsing Chapter "
                       ++ fmt chapter_key ++ ", Scene " ++ dec n ++ ": "
                       ++ exn_str ex in
          (Ok tt, emit (Print msg) (emit (LogError msg) w))
      end
  end.

(** Lines 273-275 of [main]: aggregate, then render and write.  Argument
    parsing, loading the sheet and the optional chart are outside. *)
Definition main (e : env) (df : list row) (num_rows : option nat)
           (tags : option (list string)) (am : bool) (output_dir : string)
           (w : world) : result unit * world :=
  let '(chapters_, w) := parse_scenes df num_rows w in
  generate_markdown_content e chapters_ tags output_dir am w.

(** The calls of [open] in a trace: path and content, whether the write
    went through or not. *)
Definition attempts (tr : list event) : list (string * string) :=
  flat_map (fun ev => match ev with
                      | FileWritten p c | FileFailed p c _ => [(p, c)]
                      | _ => []
                      end) tr.

(** The documents that reached the disk. *)
Definition written (tr : list event) : list (string * string) :=
  flat_map (fun ev => match ev with
                      | FileWritten p c => [(p, c)]
                      | _ => []
                      end) tr.

(** *** Vocabulary for the statements *)

(** The rows whose [Chapter] cell equals [k], in input order. *)
Definition rows_of (k : cell) (df : list row) : list row :=
  filter (fun r => match row_get "Chapter" r with
                   | Ok c => cell_eqb c k
                   | Raise _ => false
                   end) df.

(** The [Chapter] cells of the rows, in input order. *)
Definition chapter_keys (df : list row) : list cell :=
  flat_map (fun r => match row_get "Chapter" r with
                     | Ok c => [c]
                     | Raise _ => []
                     end) df.

Definition cell_eq_dec (a b : cell) : {a = b} + {a <> b}.
Proof.
  decide equality; [apply string_dec | apply Z.eq_dec].
Defined.

(** The chapter keys that occur, each once. *)
Definition distinct_keys (df : list row) : list cell :=
  nodup cell_eq_dec (chapter_keys df).

(** The section of scene [scene_number] read off the row it comes from. *)
Definition row_section (pov temp : cell) (scene_number : nat) (r : row)
  : result string :=
  let? time_ := row_get "Time" r in
  let? day_ := row_get "Day" r in
  let? week_ := row_get "Week" r in
  let? weather_ := row_get "Weather" r in
  let? uniform_ := row_get "Uniform" r in
  let? description_ := row_get "Description" r in
  let? setting := row_get "Location" r in
  let? block := render_setting setting in
  Ok (scene_fields pov temp scene_number
                   time_ day_ week_ weather_ uniform_ description_
        ++ block ++ nl).

(** The cells the rows [rs] hold in the column [label]. *)
Definition column (label : string) (rs : list row) : list (result cell) :=
  map (row_get label) rs.

(** The aggregate [c] holds the rows [rs], in order: scene numbers
    1..N, one entry per row in each per-scene list, and the chapter-level
    values of the last row. *)
Record agrees (rs : list row) (c : chapter_data) : Prop := mk_agrees {
  ag_scenes : scenes c = seq 1 (List.length rs);
  ag_counter : scene_counter c = S (List.length rs);
  ag_day : column "Day" rs = map Ok (day c);
  ag_settings : column "Location" rs = map Ok (settings c);
  ag_uniform : column "Uniform" rs = map Ok (uniform c);
  ag_weather : column "Weather" rs = map Ok (weather c);
  ag_time : column "Time" rs = map Ok (time c);
  ag_descriptions : column "Description" rs = map Ok (descriptions c);
  ag_week : column "Week" rs = map Ok (week c);
  ag_last : forall pre r, rs = (pre ++ [r])%list ->
            row_get "POV" r = Ok (POV c) /\
            row_get "Arc" r = Ok (arc c) /\
            Some (row_get "Temperature" r) = option_map Ok (temperature c)
}.

(** The dict [d] is the aggregation of the rows [df]: a key is present
    exactly when some row carries it, its aggregate holds those rows, and
    no key is stored twice. *)
Definition aggregated (df : list row) (d : chapters) : Prop :=
  NoDup (map fst d) /\
  forall k, match dict_get k d with
            | Some c => rows_of k df <> [] /\ agrees (rows_of k df) c
            | None => rows_of k df = []
            end.

(** The metadata block, as [add_metadata] lays it out when the clock is
    read in the world [w]. *)
Definition metadata_block (e : env) (tl : list string) (pov arc_ : cell)
           (w : world) : string :=
  "---" ++ nl
    ++ "created: " ++ now e (ticks w) ++ nl
    ++ "generated_by: " ++ script e ++ nl
    ++ "tags: " ++ join ", " tl ++ nl
    ++ "POV: " ++ fmt pov ++ nl
    ++ "Arc: " ++ fmt arc_ ++ nl
    ++ "---" ++ nl ++ nl.

(** Every failed write in the trace is followed at once by its error
    message, logged and then printed. *)
Fixpoint failures_logged (output_dir : string) (tr : list event) : Prop :=
  match tr with
  | [] => True
  | FileFailed p c ex :: rest =>
      (exists fp rest',
          p = md_path output_dir fp /\
          rest = LogError (save_error output_dir fp ex)
                   :: Print (save_error output_dir fp ex) :: rest') /\
      failures_logged output_dir rest
  | _ :: rest => failures_logged output_dir rest
  end.

(** [os.makedirs(output_dir)] occurs in the trace. *)
Definition made (output_dir : string) (tr : list event) : bool :=
  existsb (fun ev => match ev with
                     | MakeDirs dir => String.eqb output_dir dir
                     | _ => false
                     end) tr.

(** [os.path.exists(output_dir)] in the world [w]. *)
Definition present (output_dir : string) (w : world) : bool :=
  existsb (String.eqb output_dir) (dirs w).

(** The attempts a disk that behaves as [e] says lets through. *)
Definition let_through (e : env) (docs : list (string * string))
  : list (string * string) :=
  filter (fun pc => match write_err e (fst pc) (snd pc) with
                    | None => true
                    | Some _ => false
                    end) docs.

(** Two worlds that differ at most in which writes went through. *)
Definition same_view (w1 w2 : world) : Prop :=
  dirs w1 = dirs w2 /\ ticks w1 = ticks w2 /\
  attempts (trace w1) = attempts (trace w2).

(** Every [Location] cell of the rows is a text. *)
Definition text_locations (df : list row) : Prop :=
  forall r, In r df -> exists s, row_get "Location" r = Ok (Str s).

(** The output directory exists, or [os.makedirs] can create it. *)
Definition dir_available (e : env) (output_dir : string) (w : world) : Prop :=
  existsb (String.eqb output_dir) (dirs w) = true \/
  makedirs_err e output_dir = None.

(** The file name [write_markdown] is given for the chapter [k]. *)
Definition chapter_path (output_dir : string) (k : cell) : string :=
  md_path output_dir ("Chapter " ++ fmt k).

(** The aggregate of at least one row, every row located at a text: what
    [parse_scenes] builds for a chapter of a sheet with text locations. *)
Definition renderable (c : chapter_data) : Prop :=
  exists rs, rs <> [] /\ agrees rs c /\ text_locations rs.

(** The path does not start with [/]: it names a place under the current
    directory, the same place as ["./"] followed by it. *)
Definition relative (path : string) : bool := negb (prefix "/" path).

(** A row with the eleven columns of the sheet, in sheet order. *)
Definition mk_row (week_ arc_ chapter location uniform_ time_ weather_ day_
                   description_ pov temp : cell) : row :=
  [("Week", week_); ("Arc", arc_); ("Chapter", chapter);
   ("Location", location); ("Uniform", uniform_); ("Time", time_);
   ("Weather", weather_); ("Day", day_); ("Description", description_);
   ("POV", pov); ("Temperature", temp)].

(** The cells of a row other than [Chapter] and [Location]. *)
Record other_cells : Type := mk_other_cells {
  o_week : cell; o_arc : cell; o_uniform : cell; o_time : cell;
  o_weather : cell; o_day : cell; o_description : cell; o_pov : cell;
  o_temp : cell
}.

(** A row of chapter ["1"] located at ["Forest - Clearing, River"]. *)
Definition forest_row (o : other_cells) : row :=
  mk_row (o_week o) (o_arc o) (Str "1") (Str "Forest - Clearing, River")
         (o_uniform o) (o_time o) (o_weather o) (o_day o) (o_description o)
         (o_pov o) (o_temp o).

(** The bullet [Forest] with its sub-bullets [Clearing] and [River]. *)
Definition forest_block : string :=
  " - Forest" ++ nl ++ "     - Clearing" ++ nl ++ "     - River" ++ nl.

(** The section such a row is expected to give under the heading
    [### Scene number], with the chapter-level [pov] and [temp]. *)
Definition forest_section (pov temp : cell) (number : string)
           (o : other_cells) : string :=
  "### Scene " ++ number ++ nl ++ nl
    ++ " - POV: " ++ fmt pov ++ nl
    ++ " - Date and Time: " ++ fmt (o_time o) ++ nl
    ++ " - Day: " ++ fmt (o_day o) ++ nl
    ++ " - Week: " ++ fmt (o_week o) ++ nl
    ++ " - Temperature: " ++ fmt temp ++ nl
    ++ " - Weather: " ++ fmt (o_weather o) ++ nl
    ++ " - Uniform: " ++ fmt (o_uniform o) ++ nl ++ nl
    ++ " - Description: " ++ fmt (o_description o) ++ nl ++ nl
    ++ " #### Setting:" ++ nl
    ++ forest_block ++ nl.

(** The document expected of three such rows: the metadata block when it
    is asked for, the chapter heading, and the sections of scenes 1, 2 and
    3 in input order. *)
Definition forest_doc (e : env) (tags : option (list string)) (am : bool)
           (w : world) (o1 o2 o3 : other_cells) : string :=
  (if am then match tags with
              | Some tl => metadata_block e tl (o_pov o3) (o_arc o3) w
              | None => ""
              end
   else "")
    ++ "# Chapter 1" ++ nl ++ "## Scenes" ++ nl
    ++ forest_section (o_pov o3) (o_temp o3) "1" o1
    ++ forest_section (o_pov o3) (o_temp o3) "2" o2
    ++ forest_section (o_pov o3) (o_temp o3) "3" o3.

(** The aggregate of three such rows. *)
Definition forest_chapter (o1 o2 o3 : other_cells) : chapter_data :=
  {| scenes := [1; 2; 3];
     settings := [Str "Forest - Clearing, River";
                  Str "Forest - Clearing, River";
                  Str "Forest - Clearing, River"];
     scene_counter := 4;
     day := [o_day o1; o_day o2; o_day o3];
     POV := o_pov o3;
     description := Str "";
     time := [o_time o1; o_time o2; o_time o3];
     weather := [o_weather o1; o_weather o2; o_weather o3];
     descriptions := [o_description o1; o_description o2; o_description o3];
     uniform := [o_uniform o1; o_uniform o2; o_uniform o3];
     arc := o_arc o3;
     week := [o_week o1; o_week o2; o_week o3];
     temperature := Some (o_temp o3) |}.

(** *** Sample data *)

(** The other cells of a sample row of week [week_]. *)
Definition sample_cells (week_ : Z) : other_cells :=
  {| o_week := Int week_; o_arc := Int 1; o_uniform := Str "Summer kit";
     o_time := Str "09:00"; o_weather := Str "Rain"; o_day := Str "Monday";
     o_description := Str "They meet."; o_pov := Str "Ann";
     o_temp := Int 12 |}.


(** An environment in which nothing fails. *)
Definition calm : env :=
  {| now := fun n => "2024-05-01 10:00:0" ++ dec n;
     script := "excel_to_markdown.py";
     makedirs_err := fun _ => None;
     write_err := fun _ _ => None |}.

(** An environment in which the file of chapter 1 cannot be written. *)
Definition locked : env :=
  {| now := now calm;
     script := script calm;
     makedirs_err := fun _ => None;
     write_err := fun path _ =>
                    if String.eqb path "./notes/Chapter 1.md"
                    then Some (OSError "[Errno 13] Permission denied")
                    else None |}.

(** A fresh run: no output directory yet, nothing logged. *)
Definition fresh : world := {| dirs := []; ticks := 0; trace := [] |}.

(** A planning row of chapter [chapter] set at [location]. *)
Definition sample_row (week_ : Z) (chapter location : cell) : row :=
  mk_row (Int week_) (Int 1) chapter location (Str "Summer kit")
         (Str "09:00") (Str "Rain") (Str "Monday") (Str "They meet.")
         (Str "Ann") (Int 12).

(** Three scenes of chapter 1 in the forest. *)
Definition forest_rows : list row :=
  [sample_row 1 (Str "1") (Str "Forest - Clearing, River");
   sample_row 1 (Str "1") (Str "Forest - Clearing, River");
   sample_row 2 (Str "1") (Str "Forest - Clearing, River")].

(** Two chapters; the location of the second was typed as a number. *)
Definition room_rows : list row :=
  [sample_row 1 (Str "1") (Str "Hall");
   sample_row 1 (Str "2") (Int 12)].

(** Two chapters of one scene each. *)
Definition hall_rows : list row :=
  [sample_row 1 (Str "1") (Str "Hall");
   sample_row 1 (Str "2") (Str "Yard")].

(** The aggregate of the second of them. *)
Definition yard_chapter : chapter_data :=
  add_scene (Int 1) (Int 1) (Str "Yard") (Str "Summer kit") (Str "09:00")
            (Str "Rain") (Str "Monday") (Str "They meet.") (Str "Ann")
            (Int 12) new_chapter.

(** Two chapters; the location of the first was typed as a number. *)
Definition number_first_rows : list row :=
  [sample_row 1 (Str "1") (Int 12);
   sample_row 1 (Str "2") (Str "Yard")].

(** A sheet whose second row lacks the [Weather] cell. *)
Definition ragged_rows : list row :=
  [sample_row 1 (Str "1") (Str "Hall");
   [("Week", Int 1); ("Arc", Int 1); ("Chapter", Str "2");
    ("Location", Str "Yard"); ("Uniform", Str "Summer kit");
    ("Time", Str "10:00")];
   sample_row 2 (Str "3") (Str "Gym")].

End Excel.

(** ** The word-frequency aggregator, [scripts/common_words.py] *)

Module Words.

(** A file of the folder: its name and the rows [csv.reader] yields. *)
Definition csv_file : Type := string * list (list string).

(** The [defaultdict(int)]: word to total, in insertion order. *)
Definition word_counts : Type := list (string * Z).

(** [word_counts[word]] read without inserting; an absent word reads 0. *)
Fixpoint lookup (word : string) (wc : word_counts) : option Z :=
  match wc with
  | [] => None
  | (w, n) :: wc' => if String.eqb word w then Some n else lookup word wc'
  end.

(** [word_counts[word] += count]. *)
Fixpoint add_count (word : string) (count : Z) (wc : word_counts)
  : word_counts :=
  match wc with
  | [] => [(word, (0 + count)%Z)]
  | (w, n) :: wc' =>
      if String.eqb word w then (w, (n + count)%Z) :: wc'
      else (w, n) :: add_count word count wc'
  end.

(** The dict so far and the lines printed so far, oldest first. *)
Definition state : Type := word_counts * list string.

Section Reader.

(** [int(text)]: the number, or [None] where Python raises
    [ValueError]. *)
Variable py_int : string -> option Z.

(** Lines 17-23 for one row of the file [filename]. *)
Definition read_row (filename : string) (st : state) (row : list string)
  : state :=
  match row with
  | [word; count] =>
      match py_int count with
      | Some n => (add_count word n (fst st), snd st)
      | None =>
          (fst st,
           (snd st ++ [("Skipping invalid count for word '" ++ word
                          ++ "' in file " ++ filename)%string])%list)
      end
  | _ => st
  end.

(** Lines 11-23 for one directory entry. *)
Definition read_file (st : state) (f : csv_file) : state :=
  let '(filename, rows) := f in
  if endswith filename ".csv" then fold_left (read_row filename) rows st
  else st.

(** [read_csv_files], lines 6-25, on the entries [os.listdir] returns,
    together with what was printed. *)
Definition read_csv_files (folder : list csv_file) : state :=
  fold_left read_file folder ([], []).

(** A row that adds to the totals: two fields, the second a number. *)
Definition counted (row : list string) : option (string * Z) :=
  match row with
  | [word; count] =>
      match py_int count with
      | Some n => Some (word, n)
      | None => None
      end
  | _ => None
  end.

(** A row that is reported: two fields, the second not a number. *)
Definition reported (row : list string) : bool :=
  match row with
  | [_; count] =>
      match py_int count with
      | Some _ => false
      | None => true
      end
  | _ => false
  end.

End Reader.

(** A reading of [int] on plain decimal numerals, for examples: an
    optional sign and at least one ASCII digit. *)
Fixpoint digits (s : string) (acc : Z) : option Z :=
  match s with
  | EmptyString => Some acc
  | String c s' =>
      let n := nat_of_ascii c in
      if ((48 <=? n) && (n <=? 57))%nat
      then digits s' (10 * acc + Z.of_nat (n - 48))%Z
      else None
  end.

Definition int_decimal (s : string) : option Z :=
  match s with
  | EmptyString => None
  | String "-" EmptyString | String "+" EmptyString => None
  | String "-" s' => option_map Z.opp (digits s' 0%Z)
  | String "+" s' => digits s' 0%Z
  | _ => digits s 0%Z
  end.

(** *** Vocabulary for the statements *)

(** The rows that are read, each with the name of its file, in reading
    order: those of the entries whose name ends in [.csv]. *)
Definition csv_rows (folder : list csv_file)
  : list (string * list string) :=
  flat_map (fun f => if endswith (fst f) ".csv"
                     then map (pair (fst f)) (snd f)
                     else []) folder.

(** The line printed for a row of [filename] whose count is not a
    number. *)
Definition skip_message (filename : string) (row : list string) : string :=
  match row with
  | word :: _ =>
      "Skipping invalid count for word '" ++ word ++ "' in file " ++ filename
  | [] => ""
  end.

(** Word and count of the rows that add to the totals. *)
Definition entries (py_int : string -> option Z)
           (rows : list (string * list string)) : list (string * Z) :=
  flat_map (fun fr => match counted py_int (snd fr) with
                      | Some e => [e]
                      | None => []
                      end) rows.

(** The sum of the counts entered for [word]; [None] when there is no
    entry for it. *)
Definition total (word : string) (es : list (string * Z)) : option Z :=
  match filter (fun e => String.eqb word (fst e)) es with
  | [] => None
  | hits => Some (fold_right Z.add 0%Z (map snd hits))
  end.

(** The dict after the entries [es] were added to [wc], in order. *)
Definition apply_entries (es : list (string * Z)) (wc : word_counts)
  : word_counts :=
  fold_left (fun acc e => add_count (fst e) (snd e) acc) es wc.

(** The lines printed for the rows that are reported, in order. *)
Definition skipped (py_int : string -> option Z)
           (rows : list (string * list string)) : list string :=
  map (fun fr => skip_message (fst fr) (snd fr))
      (filter (fun fr => reported py_int (snd fr)) rows).

(** Sample files: a CSV file with a good row, a bad count, a repeated
    word, a short and a long row; a text file; a second CSV file. *)
Definition sample_folder : list csv_file :=
  [("one.csv", [["the"; "3"]; ["cat"; "many"]; ["the"; "4"]; ["lonely"];
                ["a"; "1"; "extra"]]);
   ("notes.txt", [["the"; "100"]]);
   ("two.csv", [["cat"; "2"]])].

End Words.

(** ** More vocabulary for the scene-plan converter *)

Module Sheet.

Import Excel.

(** The columns [parse_scenes] reads, in the order of lines 97-107. *)
Definition sheet_columns : list string :=
  ["Week"; "Arc"; "Chapter"; "Location"; "Uniform"; "Time"; "Weather";
   "Day"; "Description"; "POV"; "Temperature"].

(** The row has a cell under [label]. *)
Definition has_column (r : row) (label : string) : bool :=
  match row_get label r with
  | Ok _ => true
  | Raise _ => false
  end.

(** The first of the columns read that the row lacks. *)
Definition missing_column (r : row) : option string :=
  find (fun label => negb (has_column r label)) sheet_columns.

(** The first row that lacks one of them. *)
Definition first_ragged (df : list row) : option row :=
  find (fun r => match missing_column r with
                 | Some _ => true
                 | None => false
                 end) df.

(** The keys in the order of their first occurrence, each once. *)
Fixpoint first_seen (ks : list cell) : list cell :=
  match ks with
  | [] => []
  | k :: ks' => k :: filter (fun k' => negb (cell_eqb k' k)) (first_seen ks')
  end.

(** Five rows whose chapters come interleaved: 2, 1, 2, 3, 1. *)
Definition interleaved_rows : list row :=
  [sample_row 1 (Str "2") (Str "Hall");
   sample_row 1 (Int 1) (Str "Yard");
   sample_row 2 (Str "2") (Str "Gym");
   sample_row 2 (Str "3") (Str "Hall. Yard");
   sample_row 3 (Int 1) (Str "Gym - Bench")].

(** Two rows of chapter 1 that disagree on point of view, arc and
    temperature, with a row of chapter 2 between them. *)
Definition changing_rows : list row :=
  [mk_row (Int 1) (Int 1) (Str "1") (Str "Hall") (Str "Summer kit")
          (Str "09:00") (Str "Rain") (Str "Monday") (Str "They meet.")
          (Str "Ann") (Int 12);
   sample_row 1 (Str "2") (Str "Yard");
   mk_row (Int 2) (Int 2) (Str "1") (Str "Gym") (Str "Winter kit")
          (Str "15:00") (Str "Snow") (Str "Friday") (Str "They part.")
          (Str "Ben") (Int (-3))].

(** The aggregate of the first of the two chapters of [hall_rows]. *)
Definition hall_chapter : chapter_data :=
  add_scene (Int 1) (Int 1) (Str "Hall") (Str "Summer kit") (Str "09:00")
            (Str "Rain") (Str "Monday") (Str "They meet.") (Str "Ann")
            (Int 12) new_chapter.

(** The number of scenes held by all the chapters of the dict. *)
Definition scene_total (d : chapters) : nat :=
  list_sum (map (fun kc => List.length (scenes (snd kc))) d).

(** An environment in which no directory can be made. *)
Definition sealed : env :=
  {| now := now calm;
     script := script calm;
     makedirs_err := fun _ => Some (OSError "[Errno 13] Permission denied");
     write_err := fun _ _ => None |}.

End Sheet.

(** ** Ranking and display, [scripts/common_words.py] *)

Module Ranking.

Import Words.

(** Where [sorted(..., key=count, reverse=True)] puts one more item: after
    the items with a larger count, before those with an equal or smaller
    one.  The sort is stable, also when reversed. *)
Fixpoint insert_ranked (x : string * Z) (l : list (string * Z))
  : list (string * Z) :=
  match l with
  | [] => [x]
  | y :: l' =>
      if (snd x <? snd y)%Z then y :: insert_ranked x l' else x :: l
  end.

(** [rank_words], lines 27-30, on the items of the dict in dict order. *)
Definition rank_words (wc : word_counts) : list (string * Z) :=
  fold_right insert_ranked [] wc.

(** [n] spaces. *)
Fixpoint spaces (n : nat) : string :=
  match n with
  | O => EmptyString
  | S k => String " " (spaces k)
  end.

(** A byte that continues a character of a UTF-8 text. *)
Definition is_continuation (c : ascii) : bool :=
  let n := nat_of_ascii c in ((128 <=? n) && (n <? 192))%nat.

(** [len(s)]: the number of characters of a UTF-8 text. *)
Fixpoint chars (s : string) : nat :=
  match s with
  | EmptyString => 0
  | String c s' => (if is_continuation c then 0 else 1) + chars s'
  end.

(** [f"{s:<width}"]: the text, filled up with spaces on the right to
    [width] characters; a longer text is left as it is. *)
Definition ljust (width : nat) (s : string) : string :=
  s ++ spaces (width - chars s).

(** [l[:stop]]. *)
Definition slice_to {A : Type} (stop : Z) (l : list A) : list A :=
  if (stop <? 0)%Z
  then firstn (List.length l - Z.to_nat (- stop)) l
  else firstn (Z.to_nat stop) l.

(** The line of line 37. *)
Definition ranking_line (rank : nat) (word : string) (count : Z) : string :=
  ljust 5 (dec rank) ++ ljust 15 word ++ ljust 10 (decZ count).

(** The loop of lines 36-37, [rank] being the next rank. *)
Fixpoint ranking_lines (rank : nat) (rows : list (string * Z)) : list string :=
  match rows with
  | [] => []
  | (word, count) :: rows' =>
      ranking_line rank word count :: ranking_lines (S rank) rows'
  end.

(** ['-' * 30]. *)
Fixpoint dashes (n : nat) : string :=
  match n with
  | O => EmptyString
  | S k => String "-" (dashes k)
  end.

(** [display_ranking], lines 32-37: the lines it prints. *)
Definition display_ranking (ranked_words : list (string * Z)) (top_n : Z)
  : list string :=
  (ljust 5 "Rank" ++ ljust 15 "Word" ++ ljust 10 "Count")
    :: dashes 30
    :: ranking_lines 1 (slice_to top_n ranked_words).

(** The calls [plot_word_counts] makes on [matplotlib.pyplot]. *)
Inductive plot_call : Type :=
| Figure (width height : nat)
| Bar (words : list string) (counts : list Z) (color : string)
| XLabel (text : string)
| YLabel (text : string)
| Title (text : string)
| XTicks (rotation : nat) (ha : string)
| Text (x : nat) (y : Z) (text : string)
| TightLayout
| Show.

(** The loop of lines 55-56 from index [i]. *)
Fixpoint bar_labels (i : nat) (counts : list Z) : list plot_call :=
  match counts with
  | [] => []
  | c :: counts' => Text i c (decZ c) :: bar_labels (S i) counts'
  end.

(** [plot_word_counts], lines 39-60. *)
Definition plot_word_counts (ranked_words : list (string * Z)) (top_n : Z)
  : list plot_call :=
  let words := map fst (slice_to top_n ranked_words) in
  let counts := map snd (slice_to top_n ranked_words) in
  ([Figure 12 8; Bar words counts "skyblue"; XLabel "Words";
    YLabel "Counts"; Title "Top Words by Occurrence"; XTicks 45 "right"]
     ++ bar_labels 0 counts ++ [TightLayout; Show])%list.

(** [main], lines 63-67: what is printed and what is plotted. *)
Definition main (py_int : string -> option Z) (folder : list csv_file)
           (top_n : Z) : list string * list plot_call :=
  let st := read_csv_files py_int folder in
  let ranked_words := rank_words (fst st) in
  ((snd st ++ display_ranking ranked_words top_n)%list,
   plot_word_counts ranked_words top_n).

(** The entry of the folder is read: its name ends in [.csv]. *)
Definition is_csv (f : csv_file) : bool := endswith (fst f) ".csv".

(** The items are in order of non-increasing count. *)
Definition ranked (l : list (string * Z)) : Prop :=
  StronglySorted (fun a b => (snd b <= snd a)%Z) l.

(** The items with the count [c], in list order. *)
Definition with_count (c : Z) (l : list (string * Z)) : list (string * Z) :=
  filter (fun x => (snd x =? c)%Z) l.

End Ranking.

(** ** The tag argument, [parse_items] of [scripts/excel_to_markdown.py] *)

Module Tags.

(** [c.isspace()] for an ASCII character: tab, line feed, vertical tab,
    form feed, carriage return, the four separators 28-31, and space. *)
Definition is_space (c : ascii) : bool :=
  let n := nat_of_ascii c in
  (((9 <=? n) && (n <=? 13)) || ((28 <=? n) && (n <=? 32)))%nat.

(** [s.lstrip()]. *)
Fixpoint lstrip (s : string) : string :=
  match s with
  | EmptyString => EmptyString
  | String c s' => if is_space c then lstrip s' else s
  end.

(** [s.rstrip()]. *)
Fixpoint rstrip (s : string) : string :=
  match s with
  | EmptyString => EmptyString
  | String c s' =>
      match rstrip s' with
      | EmptyString => if is_space c then EmptyString else String c EmptyString
      | String c' r => String c (String c' r)
      end
  end.

(** [s.strip()] on an ASCII text; a byte above 127 counts as no space. *)
Definition strip (s : string) : string := rstrip (lstrip s).

(** [parse_items], lines 247-249. *)
Definition parse_items (value : string) : list string :=
  map strip (split "," value).

(** Every character of the text is ASCII. *)
Fixpoint is_ascii (s : string) : bool :=
  match s with
  | EmptyString => true
  | String c s' => (nat_of_ascii c <? 128)%nat && is_ascii s'
  end.

(** An ASCII text without comma and without white space at either end. *)
Definition plain (t : string) : bool :=
  is_ascii t && negb (contains "," t)
  && String.eqb (lstrip t) t && String.eqb (rstrip t) t.

(** The number of commas in the text. *)
Fixpoint commas (s : string) : nat :=
  match s with
  | EmptyString => 0
  | String c s' => (if Ascii.eqb c "," then 1 else 0) + commas s'
  end.

End Tags.

(** ** The day chart and the end of [main], [scripts/excel_to_markdown.py] *)

Module Metrics.

Import Excel.

(** [counter[x] += 1] on a [Counter], kept in insertion order. *)
Fixpoint tally (x : cell) (counter : list (cell * nat)) : list (cell * nat) :=
  match counter with
  | [] => [(x, 1)]
  | (k, n) :: counter' =>
      if cell_eqb x k then (k, S n) :: counter'
      else (k, n) :: tally x counter'
  end.

(** [Counter(xs)]. *)
Definition Counter (xs : list cell) : list (cell * nat) :=
  fold_left (fun acc x => tally x acc) xs [].

(** The data frame as [generate_metrics] sees it: its column labels and
    its rows. *)
Definition frame : Type := list string * list row.

(** [df[label]]: the cells of the column, [KeyError] when the frame has
    no such column. *)
Fixpoint cells (label : string) (rows : list row) : result (list cell) :=
  match rows with
  | [] => Ok []
  | r :: rows' =>
      let? c := row_get label r in
      let? cs := cells label rows' in
      Ok (c :: cs)
  end.

Definition frame_column (label : string) (df : frame) : result (list cell) :=
  if existsb (String.eqb label) (fst df) then cells label (snd df)
  else Raise (KeyError label).

(** The calls made on [matplotlib.pyplot]. *)
Inductive plot_call : Type :=
| Figure (width height : nat)
| Bar (labels : list cell) (counts : list nat) (color : string)
| XLabel (text : string)
| YLabel (text : string)
| Title (text : string)
| SaveFig (path : string)
| Show.

(** What leaves [generate_metrics] and [main]: the [ValueError] of the
    unpacking on line 230, or an exception of the kinds met before. *)
Inductive error : Type :=
| ValueError (msg : string)
| Other (ex : exn).

(** The disk and log on one side, the calls on the plotting library on
    the other. *)
Definition studio : Type := world * list plot_call.

(** [generate_metrics], lines 224-245.  [savefig_err] tells for which
    paths [plt.savefig] raises. *)
Definition generate_metrics (e : env) (savefig_err : string -> option exn)
           (df : frame) (save : bool) (output_dir : string) (st : studio)
  : option error * studio :=
  match frame_column "Day" df with
  | Raise ex => (Some (Other ex), st)
  | Ok days =>
      match Counter days with
      | [] =>
          (Some (ValueError "not enough values to unpack (expected 2, got 0)"),
           st)
      | counter =>
          let labels := map fst counter in
          let counts := map snd counter in
          let calls :=
            (snd st ++ [Figure 10 5; Bar labels counts "skyblue";
                        XLabel "Day of the Week"; YLabel "Count";
                        Title "Days of the Week"])%list in
          if save then
            let images := output_dir ++ "/images/" in
            let made :=
              if present images (fst st) then Ok (fst st)
              else match makedirs_err e images with
                   | Some ex => Raise ex
                   | None => Ok (mkdir images (fst st))
                   end in
            match made with
            | Raise ex => (Some (Other ex), (fst st, calls))
            | Ok w =>
                let path := output_dir ++ "/images/days.png" in
                match savefig_err path with
                | Some ex => (Some (Other ex), (w, calls))
                | None => (None, (w, (calls ++ [SaveFig path; Show])%list))
                end
            end
          else (None, (fst st, calls))
      end
  end.

(** Lines 273-283 of [main] on the loaded frame: aggregate, render,
    draw the chart if asked to, and report. *)
Definition main_script (e : env) (savefig_err : string -> option exn)
           (input_file : string) (df : frame) (num_rows : option nat)
           (tags : option (list string)) (am : bool) (output_dir : string)
           (generate_metrics_ save : bool) (st : studio)
  : option error * studio :=
  let '(chapters_, w) := parse_scenes (snd df) num_rows (fst st) in
  match generate_markdown_content e chapters_ tags output_dir am w with
  | (Raise ex, w) => (Some (Other ex), (w, snd st))
  | (Ok _, w) =>
      let '(failed, st) :=
        if generate_metrics_
        then generate_metrics e savefig_err df save output_dir (w, snd st)
        else (None, (w, snd st)) in
      match failed with
      | Some err => (Some err, st)
      | None =>
          match chapters_ with
          | None =>
              (Some (Other (TypeError "object of type 'NoneType' has no len()")),
               st)
          | Some d =>
              let msg := "Script complete. Excel file: '" ++ input_file
                           ++ "' converted to " ++ dec (List.length d)
                           ++ " .md files." in
              (None, (emit (Print msg) (emit (LogInfo msg) (fst st)), snd st))
          end
      end
  end.

(** The sum of the numbers. *)
Definition sum (ns : list nat) : nat := fold_right Nat.add 0 ns.

(** The eleven columns, and a frame made of them. *)
Definition sheet (rows : list row) : frame := (Sheet.sheet_columns, rows).

(** [plt.savefig] never fails. *)
Definition savefig_ok : string -> option exn := fun _ => None.

End Metrics.

(** * Properties *)

Import Excel.

(** ** Strings *)

Section StringFacts.

Lemma append_empty_r (s : string) : s ++ "" = s.
Proof.
  induction s as [|c s IH]; simpl; [reflexivity | now rewrite IH].
Qed.

Lemma append_assoc (a b c : string) : (a ++ b) ++ c = a ++ b ++ c.
Proof.
  induction a as [|x a IH]; simpl; [reflexivity | now rewrite IH].
Qed.

Lemma contains_cons (sub : string) (c : ascii) (s : string) :
  contains sub (String c s) = false ->
  prefix sub (String c s) = false /\ contains sub s = false.
Proof.
  cbn [contains]. intros H. apply orb_false_iff in H. exact H.
Qed.

(** A text without the separator is one piece. *)
Lemma split_from_absent (sep s : string) :
  contains sep s = false -> split_from sep 0 s = (s, []).
Proof.
  induction s as [|c s IH]; intros H.
  - reflexivity.
  - apply contains_cons in H. destruct H as [Hp Hc].
    cbn [split_from]. rewrite Hp, (IH Hc). reflexivity.
Qed.

Lemma split_absent (sep s : string) :
  contains sep s = false -> split sep s = [s].
Proof.
  intros H. unfold split. now rewrite (split_from_absent _ _ H).
Qed.

End StringFacts.

(** ** The setting block *)

(** C3, as amended.  A location text that contains none of [". "], [" - "]
    and [", "] is rendered as exactly one first-level bullet holding the
    whole text, with no second-level bullet. *)
Theorem setting_single_bullet (location : string) :
  contains ". " location = false ->
  contains " - " location = false ->
  contains ", " location = false ->
  setting_bullets location = [Major location] /\
  render_setting (Str location) = Ok (" - " ++ location ++ nl).
Proof.
  intros Hdot Hdash _.
  assert (Hb : setting_bullets location = [Major location]).
  { unfold setting_bullets. rewrite (split_absent _ _ Hdot). cbn [flat_map].
    unfold subpart_bullets. rewrite (split_absent _ _ Hdash).
    reflexivity. }
  split; [exact Hb|].
  unfold render_setting, setting_block. rewrite Hb. cbn.
  now rewrite !append_empty_r.
Qed.

Lemma setting_single_bullet_witness :
  setting_bullets "Forest" = [Major "Forest"] /\
  render_setting (Str "Forest") = Ok (" - " ++ "Forest" ++ nl).
Proof.
  apply (setting_single_bullet "Forest"); reflexivity.
Defined.

(** C3 as written fails: a text free of [" - "] and [", "] that holds
    [". "] is cut there, and each part gets a first-level bullet. *)
Lemma setting_two_bullets_counterexample :
  ~ (contains " - " "Kitchen. Garden" = false ->
     contains ", " "Kitchen. Garden" = false ->
     setting_bullets "Kitchen. Garden" = [Major "Kitchen. Garden"]).
Proof.
  intros H. specialize (H eq_refl eq_refl). discriminate H.
Qed.

(** ** The chapter dict *)

Section DictFacts.

Lemma cell_eqb_eq (a b : cell) : cell_eqb a b = true <-> a = b.
Proof.
  destruct a as [s|x], b as [t|y]; simpl;
    try (split; intros H; discriminate H).
  - rewrite String.eqb_eq. split; intros H; [now subst | now inversion H].
  - rewrite Z.eqb_eq. split; intros H; [now subst | now inversion H].
Qed.

Lemma cell_eqb_refl (a : cell) : cell_eqb a a = true.
Proof. now apply cell_eqb_eq. Qed.

Lemma cell_eqb_neq (a b : cell) : cell_eqb a b = false <-> a <> b.
Proof.
  rewrite <- cell_eqb_eq. destruct (cell_eqb a b); split; intros H;
    try reflexivity; try discriminate; try (intros H'; discriminate H').
  now elim H.
Qed.

Lemma cell_eqb_sym (a b : cell) : cell_eqb a b = cell_eqb b a.
Proof.
  destruct (cell_eqb b a) eqn:E.
  - apply cell_eqb_eq in E. subst. apply cell_eqb_refl.
  - apply cell_eqb_neq in E. apply cell_eqb_neq. congruence.
Qed.

Lemma dict_get_none (k : cell) (d : chapters) :
  dict_get k d = None <-> ~ In k (map fst d).
Proof.
  induction d as [|[k' v] d IH]; simpl.
  - tauto.
  - destruct (cell_eqb k k') eqn:E.
    + apply cell_eqb_eq in E. subst. split; [discriminate | intros H; elim H; now left].
    + apply cell_eqb_neq in E. rewrite IH. split.
      * intros H [H1|H1]; [congruence | tauto].
      * tauto.
Qed.

Lemma dict_get_app (k k' : cell) (v : chapter_data) (d : chapters) :
  dict_get k (d ++ [(k', v)])%list =
  match dict_get k d with
  | Some c => Some c
  | None => if cell_eqb k k' then Some v else None
  end.
Proof.
  induction d as [|[k0 v0] d IH]; simpl.
  - reflexivity.
  - destruct (cell_eqb k k0); [reflexivity | exact IH].
Qed.

Lemma dict_get_update (k k' : cell) (f : chapter_data -> chapter_data)
      (d : chapters) :
  dict_get k (dict_update k' f d) =
  if cell_eqb k k' then option_map f (dict_get k d) else dict_get k d.
Proof.
  induction d as [|[k0 v0] d IH]; simpl.
  - now destruct (cell_eqb k k').
  - destruct (cell_eqb k' k0) eqn:E0; simpl.
    + apply cell_eqb_eq in E0. subst k0.
      destruct (cell_eqb k k') eqn:E; reflexivity.
    + destruct (cell_eqb k k0) eqn:E1.
      * apply cell_eqb_eq in E1. subst k0.
        rewrite cell_eqb_sym, E0. reflexivity.
      * exact IH.
Qed.

Lemma dict_update_keys (k : cell) (f : chapter_data -> chapter_data)
      (d : chapters) :
  map fst (dict_update k f d) = map fst d.
Proof.
  induction d as [|[k0 v0] d IH]; simpl; [reflexivity|].
  destruct (cell_eqb k k0); simpl; [reflexivity | now rewrite IH].
Qed.

Lemma dict_get_in (k : cell) (c : chapter_data) (d : chapters) :
  dict_get k d = Some c -> In (k, c) d.
Proof.
  induction d as [|[k0 v0] d IH]; simpl; [discriminate|].
  destruct (cell_eqb k k0) eqn:E.
  - apply cell_eqb_eq in E. subst. intros H. inversion H. now left.
  - intros H. right. now apply IH.
Qed.

Lemma in_dict_get (k : cell) (c : chapter_data) (d : chapters) :
  NoDup (map fst d) -> In (k, c) d -> dict_get k d = Some c.
Proof.
  induction d as [|[k0 v0] d IH]; simpl; [tauto|].
  intros Hnd [H|H].
  - inversion H; subst. now rewrite cell_eqb_refl.
  - inversion Hnd as [|? ? Hnot Hnd']; subst.
    destruct (cell_eqb k k0) eqn:E.
    + apply cell_eqb_eq in E. subst. elim Hnot.
      change k0 with (fst (k0, c)). now apply in_map.
    + now apply IH.
Qed.

End DictFacts.

(** ** The aggregator *)

Section Aggregator.

Lemma parse_rows_app (a b : list row) (d : chapters) :
  parse_rows (a ++ b)%list d = (let? d' := parse_rows a d in parse_rows b d').
Proof.
  revert d. induction a as [|r a IH]; intros d; simpl.
  - reflexivity.
  - destruct (parse_row r d) as [d'|ex]; simpl; [apply IH | reflexivity].
Qed.

(** What a row that aggregates without exception looks like. *)
Lemma parse_row_ok (r : row) (d d' : chapters) :
  parse_row r d = Ok d' ->
  exists wk ar ch st un tm we dy ds pv tp,
    (row_get "Week" r = Ok wk /\ row_get "Arc" r = Ok ar /\
     row_get "Chapter" r = Ok ch /\ row_get "Location" r = Ok st /\
     row_get "Uniform" r = Ok un /\ row_get "Time" r = Ok tm /\
     row_get "Weather" r = Ok we /\ row_get "Day" r = Ok dy /\
     row_get "Description" r = Ok ds /\ row_get "POV" r = Ok pv /\
     row_get "Temperature" r = Ok tp) /\
    d' = dict_update ch (add_scene wk ar st un tm we dy ds pv tp)
                     (ensure_chapter ch d).
Proof.
  unfold parse_row.
  destruct (row_get "Week" r) as [wk|]; [|discriminate].
  destruct (row_get "Arc" r) as [ar|]; [|discriminate].
  destruct (row_get "Chapter" r) as [ch|]; [|discriminate].
  destruct (row_get "Location" r) as [st|]; [|discriminate].
  destruct (row_get "Uniform" r) as [un|]; [|discriminate].
  destruct (row_get "Time" r) as [tm|]; [|discriminate].
  destruct (row_get "Weather" r) as [we|]; [|discriminate].
  destruct (row_get "Day" r) as [dy|]; [|discriminate].
  destruct (row_get "Description" r) as [ds|]; [|discriminate].
  destruct (row_get "POV" r) as [pv|]; [|discriminate].
  destruct (row_get "Temperature" r) as [tp|]; [|discriminate].
  cbn [bind]. intros H. inversion H.
  exists wk, ar, ch, st, un, tm, we, dy, ds, pv, tp.
  repeat split; reflexivity.
Qed.

Lemma agrees_new : agrees [] new_chapter.
Proof.
  constructor; try reflexivity.
  intros pre r H. destruct pre; discriminate H.
Qed.

Lemma column_snoc (label : string) (rs : list row) (r : row)
      (xs : list cell) (x : cell) :
  column label rs = map Ok xs -> row_get label r = Ok x ->
  column label (rs ++ [r])%list = map Ok (xs ++ [x])%list.
Proof.
  unfold column. intros H1 H2. rewrite !map_app, H1. simpl. now rewrite H2.
Qed.

Lemma agrees_add (rs : list row) (r : row) (c : chapter_data)
      (wk ar st un tm we dy ds pv tp : cell) :
  agrees rs c ->
  row_get "Week" r = Ok wk -> row_get "Arc" r = Ok ar ->
  row_get "Location" r = Ok st -> row_get "Uniform" r = Ok un ->
  row_get "Time" r = Ok tm -> row_get "Weather" r = Ok we ->
  row_get "Day" r = Ok dy -> row_get "Description" r = Ok ds ->
  row_get "POV" r = Ok pv -> row_get "Temperature" r = Ok tp ->
  agrees (rs ++ [r])%list (add_scene wk ar st un tm we dy ds pv tp c).
Proof.
  intros [] Hwk Har Hst Hun Htm Hwe Hdy Hds Hpv Htp.
  constructor; cbn [scenes scene_counter day settings uniform weather time
                    descriptions week POV arc temperature add_scene];
    try (now apply column_snoc).
  - rewrite last_length, seq_S, ag_scenes0, ag_counter0. reflexivity.
  - rewrite last_length, ag_counter0. lia.
  - intros pre r' H. apply app_inj_tail in H. destruct H as [_ H]. subst r'.
    rewrite Hpv, Har, Htp. repeat split; reflexivity.
Qed.

Lemma rows_of_snoc (k : cell) (df : list row) (r : row) (ch : cell) :
  row_get "Chapter" r = Ok ch ->
  rows_of k (df ++ [r])%list =
  (rows_of k df ++ (if cell_eqb ch k then [r] else []))%list.
Proof.
  intros H. unfold rows_of. rewrite filter_app. simpl. now rewrite H.
Qed.

Lemma NoDup_snoc (A : Type) (l : list A) (a : A) :
  NoDup l -> ~ In a l -> NoDup (l ++ [a])%list.
Proof.
  intros Hl Ha. apply NoDup_app; [exact Hl | |].
  - constructor; [intros [] | constructor].
  - intros x Hx [H|[]]. subst x. now apply Ha.
Qed.

(** One more row keeps the dict the aggregation of the rows read. *)
Lemma aggregated_step (df : list row) (d d' : chapters) (r : row) :
  aggregated df d -> parse_row r d = Ok d' ->
  aggregated (df ++ [r])%list d'.
Proof.
  intros [Hnd Hall] Hrow.
  apply parse_row_ok in Hrow.
  destruct Hrow as (wk & ar & ch & st & un & tm & we & dy & ds & pv & tp
                    & Hget & ->).
  destruct Hget as (Hwk & Har & Hch & Hst & Hun & Htm & Hwe & Hdy & Hds
                    & Hpv & Htp).
  split.
  - rewrite dict_update_keys. unfold ensure_chapter.
    destruct (dict_get ch d) eqn:E; [exact Hnd|].
    rewrite map_app. apply NoDup_snoc; [exact Hnd|].
    now apply dict_get_none.
  - intros k. rewrite dict_get_update, (rows_of_snoc k df r ch Hch).
    rewrite (cell_eqb_sym ch k).
    assert (Hens : dict_get k (ensure_chapter ch d) =
                   match dict_get k d with
                   | Some c => Some c
                   | None => if cell_eqb k ch then Some new_chapter else None
                   end).
    { unfold ensure_chapter. destruct (dict_get ch d) eqn:E.
      - destruct (dict_get k d) eqn:E'; [reflexivity|].
        destruct (cell_eqb k ch) eqn:Ek; [|reflexivity].
        apply cell_eqb_eq in Ek. congruence.
      - apply dict_get_app. }
    rewrite Hens. specialize (Hall k).
    destruct (cell_eqb k ch) eqn:Ek.
    + destruct (dict_get k d) as [c|]; simpl.
      * destruct Hall as [_ Hag]. split.
        -- intros H. apply app_eq_nil in H. destruct H as [_ H]. discriminate H.
        -- now apply agrees_add.
      * rewrite Hall. split; [discriminate|].
        apply (agrees_add [] r new_chapter); auto using agrees_new.
    + rewrite app_nil_r.
      destruct (dict_get k d) as [c|]; exact Hall.
Qed.

Lemma aggregated_rows (df0 df : list row) (d0 d : chapters) :
  aggregated df0 d0 -> parse_rows df d0 = Ok d ->
  aggregated (df0 ++ df)%list d.
Proof.
  revert df0 d0. induction df as [|r df IH]; intros df0 d0 H0 H; simpl in H.
  - inversion H; subst. now rewrite app_nil_r.
  - destruct (parse_row r d0) as [d1|ex] eqn:E; simpl in H; [|discriminate].
    change (r :: df) with ([r] ++ df)%list. rewrite app_assoc.
    eapply IH; [|exact H]. eapply aggregated_step; eassumption.
Qed.

(** The dict a complete pass returns is the aggregation of its input. *)
Lemma parse_rows_aggregated (df : list row) (d : chapters) :
  parse_rows df [] = Ok d -> aggregated df d.
Proof.
  intros H. apply (aggregated_rows [] df [] d); [|exact H].
  split; [constructor | intros k; reflexivity].
Qed.

Lemma column_length (label : string) (rs : list row) (xs : list cell) :
  column label rs = map Ok xs -> List.length xs = List.length rs.
Proof.
  intros H. apply (f_equal (@List.length _)) in H.
  unfold column in H. rewrite !length_map in H. congruence.
Qed.

End Aggregator.

(** C2.  After [parse_scenes] has consumed the first [n] rows, for every
    chapter key of the dict the lists [day], [settings], [uniform],
    [weather], [time], [descriptions], [scenes] and [week] all have the
    same length, the number of rows read so far that carry that key; the
    counter [scene_counter] is one ahead of it. *)
Theorem aggregate_lengths (df : list row) (n : nat) (d : chapters)
        (k : cell) (c : chapter_data) :
  parse_rows (firstn n df) [] = Ok d ->
  dict_get k d = Some c ->
  let N := List.length (rows_of k (firstn n df)) in
  List.length (day c) = N /\ List.length (settings c) = N /\
  List.length (uniform c) = N /\ List.length (weather c) = N /\
  List.length (time c) = N /\ List.length (descriptions c) = N /\
  List.length (scenes c) = N /\ List.length (week c) = N /\
  scene_counter c = N + 1.
Proof.
  intros Hp Hk N.
  destruct (parse_rows_aggregated _ _ Hp) as [_ Hall].
  specialize (Hall k). rewrite Hk in Hall. destruct Hall as [_ []].
  repeat split; try (eapply column_length; eassumption).
  - rewrite ag_scenes0. apply length_seq.
  - rewrite ag_counter0. unfold N. lia.
Qed.

(** ** The renderer *)

Section Renderer.

Lemma prefix_append (a b : string) : prefix a (a ++ b) = true.
Proof.
  induction a as [|x a IH]; simpl.
  - now destruct b.
  - destruct (ascii_dec x x) as [_|H]; [exact IH | now elim H].
Qed.

Lemma index_column (label : string) (rs : list row) (xs : list cell)
      (i : nat) (r : row) :
  column label rs = map Ok xs -> nth_error rs i = Some r ->
  index xs i = row_get label r.
Proof.
  intros H Hr. apply (f_equal (fun l => nth_error l i)) in H.
  unfold column in H. rewrite !nth_error_map, Hr in H. unfold index.
  destruct (nth_error xs i); simpl in H; [now inversion H | discriminate H].
Qed.

(** Scene [i + 1] of an aggregate is rendered from the row at position
    [i] among the rows of the chapter. *)
Lemma render_scene_row (rs : list row) (c : chapter_data) (pov temp : cell)
      (i : nat) (r : row) :
  agrees rs c -> nth_error rs i = Some r ->
  render_scene c pov temp i = row_section pov temp (i + 1) r.
Proof.
  intros [] Hr. unfold render_scene, row_section.
  rewrite (index_column "Time" rs _ i r), (index_column "Day" rs _ i r),
    (index_column "Week" rs _ i r), (index_column "Weather" rs _ i r),
    (index_column "Uniform" rs _ i r), (index_column "Description" rs _ i r),
    (index_column "Location" rs _ i r) by assumption.
  reflexivity.
Qed.

Lemma Forall2_nth (A B : Type) (R : A -> B -> Prop) (xs : list A)
      (ys : list B) (i : nat) (x : A) :
  Forall2 R xs ys -> nth_error xs i = Some x ->
  exists y, nth_error ys i = Some y /\ R x y.
Proof.
  intros H. revert i. induction H as [|x0 y0 xs ys HR _ IH]; intros i Hx.
  - destruct i; discriminate Hx.
  - destruct i as [|i]; simpl in *.
    + inversion Hx; subst. now exists y0.
    + now apply IH.
Qed.

(** A scene loop that ends normally appended one section per index. *)
Lemma render_scenes_ok (c : chapter_data) (pov temp : cell) (idx : list nat) :
  forall sn body sn',
    render_scenes c pov temp idx sn = (Ok body, sn') ->
    exists sections,
      body = concat_all sections /\
      Forall2 (fun i s => render_scene c pov temp i = Ok s) idx sections.
Proof.
  induction idx as [|i idx IH]; intros sn body sn' H; simpl in H.
  - inversion H. exists []. split; [reflexivity | constructor].
  - destruct (render_scene c pov temp i) as [text|ex] eqn:E; [|discriminate].
    destruct (render_scenes c pov temp idx (Some (i + 1))) as [[more|ex] sn1]
      eqn:E'; [|discriminate].
    inversion H; subst. destruct (IH _ _ _ E') as (secs & -> & HF).
    exists (text :: secs). split; [reflexivity | now constructor].
Qed.

(** The variable [scene_number] after a scene loop that ends normally. *)
Lemma render_scenes_number (c : chapter_data) (pov temp : cell)
      (idx : list nat) :
  forall sn body sn',
    render_scenes c pov temp idx sn = (Ok body, sn') ->
    sn' = match idx with
          | [] => sn
          | _ => Some (last idx 0 + 1)
          end.
Proof.
  induction idx as [|i idx IH]; intros sn body sn' H; simpl in H.
  - now inversion H.
  - destruct (render_scene c pov temp i) as [text|ex]; [|discriminate].
    destruct (render_scenes c pov temp idx (Some (i + 1))) as [[more|ex] sn1]
      eqn:E'; [|discriminate].
    inversion H; subst. apply IH in E'. subst sn'.
    destruct idx; reflexivity.
Qed.

Lemma add_metadata_empty (e : env) (tl : list string) (c : chapter_data)
      (w : world) :
  add_metadata e "" (arc c) (POV c) (join ", " tl) w
  = (metadata_block e tl (POV c) (arc c) w, tick w).
Proof. reflexivity. Qed.

(** What a chapter whose text was composed without exception got. *)
Lemma chapter_document_ok (e : env) (tags : option (list string))
      (am : bool) (k : cell) (c : chapter_data) (sn sn' : option nat)
      (w w' : world) (doc : string) :
  chapter_document e tags am k c sn w = (Ok doc, sn', w') ->
  exists md temp body,
    temperature c = Some temp /\
    render_scenes c (POV c) temp (seq 0 (List.length (scenes c))) sn
      = (Ok body, sn') /\
    doc = md ++ "# Chapter " ++ fmt k ++ nl ++ "## Scenes" ++ nl ++ body /\
    ((am = false /\ md = "" /\ w' = w) \/
     (am = true /\ w' = tick w /\
      exists tl, tags = Some tl /\ md = metadata_block e tl (POV c) (arc c) w)).
Proof.
  unfold chapter_document. intros H.
  destruct am; [destruct tags as [tl|]|].
  - rewrite add_metadata_empty in H.
    destruct (temperature c) as [temp|] eqn:Et; [|discriminate H].
    destruct (render_scenes c (POV c) temp
                (seq 0 (List.length (scenes c))) sn) as [[body|ex] sn1]
      eqn:Er; [|discriminate H].
    injection H as <- <- <-.
    exists (metadata_block e tl (POV c) (arc c) w), temp, body.
    split; [reflexivity|]. split; [exact Er|]. split; [reflexivity|].
    right. split; [reflexivity|]. split; [reflexivity|]. now exists tl.
  - discriminate H.
  - destruct (temperature c) as [temp|]; [|discriminate H].
    destruct (render_scenes c (POV c) temp
                (seq 0 (List.length (scenes c))) sn) as [[body|ex] sn1]
      eqn:Er; [|discriminate H].
    injection H as <- <- <-. exists "", temp, body.
    split; [reflexivity|]. split; [exact Er|]. split; [reflexivity|].
    now left.
Qed.

Lemma prefix_app_cancel (a b c : string) :
  prefix (a ++ b) (a ++ c) = prefix b c.
Proof.
  induction a as [|x a IH]; simpl.
  - reflexivity.
  - destruct (ascii_dec x x) as [_|H]; [exact IH | now elim H].
Qed.

Lemma Ok_inj (A : Type) (a b : A) : Ok a = Ok b -> a = b.
Proof. intros H. now inversion H. Qed.

(** Every section opens with the heading of its scene number. *)
Lemma row_section_heading (pov temp : cell) (n : nat) (r : row) (s : string) :
  row_section pov temp n r = Ok s ->
  prefix ("### Scene " ++ dec n ++ nl) s = true.
Proof.
  unfold row_section.
  destruct (row_get "Time" r); [|discriminate].
  destruct (row_get "Day" r); [|discriminate].
  destruct (row_get "Week" r); [|discriminate].
  destruct (row_get "Weather" r); [|discriminate].
  destruct (row_get "Uniform" r); [|discriminate].
  destruct (row_get "Description" r); [|discriminate].
  destruct (row_get "Location" r) as [st|]; [|discriminate].
  cbn [bind].
  destruct (render_setting st) as [block|]; [|discriminate].
  cbn [bind]. intros H. apply Ok_inj in H. subst s.
  unfold scene_fields. rewrite !append_assoc.
  rewrite 2 prefix_app_cancel. apply prefix_append.
Qed.

Lemma Forall2_same_length (A B : Type) (R : A -> B -> Prop) (xs : list A)
      (ys : list B) :
  Forall2 R xs ys -> List.length ys = List.length xs.
Proof.
  induction 1; simpl; congruence.
Qed.

End Renderer.

(** C1.  Take a chapter of the dict built from the rows [df] and a
    document composed for it.  After the optional metadata block, the
    chapter heading and the line [## Scenes], the document is the
    concatenation of exactly as many sections as [df] has rows with that
    chapter key; the section at position [i] is the rendering of the row at
    position [i] among those rows, and it opens with the heading
    [### Scene i+1]. *)
Theorem scene_sections (e : env) (tags : option (list string)) (am : bool)
        (df : list row) (d : chapters) (k : cell) (c : chapter_data)
        (sn sn' : option nat) (w w' : world) (doc : string) :
  parse_rows df [] = Ok d ->
  dict_get k d = Some c ->
  chapter_document e tags am k c sn w = (Ok doc, sn', w') ->
  exists md temp sections,
    doc = md ++ "# Chapter " ++ fmt k ++ nl ++ "## Scenes" ++ nl
             ++ concat_all sections /\
    md = (if am then match tags with
                     | Some tl => metadata_block e tl (POV c) (arc c) w
                     | None => ""
                     end
          else "") /\
    List.length sections = List.length (rows_of k df) /\
    forall i r,
      nth_error (rows_of k df) i = Some r ->
      exists s, nth_error sections i = Some s /\
                row_section (POV c) temp (i + 1) r = Ok s /\
                prefix ("### Scene " ++ dec (i + 1) ++ nl) s = true.
Proof.
  intros Hp Hk Hdoc.
  destruct (parse_rows_aggregated _ _ Hp) as [_ Hall].
  specialize (Hall k). rewrite Hk in Hall. destruct Hall as [_ Hag].
  destruct (chapter_document_ok _ _ _ _ _ _ _ _ _ _ Hdoc)
    as (md & temp & body & Ht & Hr & -> & Hmd).
  destruct (render_scenes_ok _ _ _ _ _ _ _ Hr) as (sections & -> & HF).
  assert (HN : List.length (scenes c) = List.length (rows_of k df)).
  { rewrite (ag_scenes _ _ Hag). apply length_seq. }
  exists md, temp, sections. split; [reflexivity|]. split.
  { destruct Hmd as [(-> & -> & _) | (-> & _ & tl & -> & ->)]; reflexivity. }
  split.
  { rewrite (Forall2_same_length _ _ _ _ _ HF), length_seq. exact HN. }
  intros i r Hi.
  assert (Hlt : i < List.length (rows_of k df)).
  { apply nth_error_Some. congruence. }
  assert (Hseq : nth_error (seq 0 (List.length (scenes c))) i = Some i).
  { rewrite nth_error_seq, HN. apply Nat.ltb_lt in Hlt. now rewrite Hlt. }
  destruct (Forall2_nth _ _ _ _ _ _ _ HF Hseq) as (s & Hs & Hrs).
  rewrite (render_scene_row _ _ _ _ _ _ Hag Hi) in Hrs.
  exists s. split; [exact Hs|]. split; [exact Hrs|].
  eapply row_section_heading; exact Hrs.
Qed.

(** C6.  A document that was composed begins with the metadata block
    exactly when [am] is true, whether or not a tag list was given.  When
    the block is there a tag list was given, the block holds the line
    [tags: ] followed by the tags joined with [", "], and the chapter
    heading comes right after it.  Without the block the document begins
    with the chapter heading. *)
Theorem metadata_iff_requested (e : env) (tags : option (list string))
        (am : bool) (k : cell) (c : chapter_data) (sn sn' : option nat)
        (w w' : world) (doc : string) :
  chapter_document e tags am k c sn w = (Ok doc, sn', w') ->
  (prefix ("---" ++ nl) doc = true <-> am = true) /\
  (am = true ->
   exists tl rest,
     tags = Some tl /\
     doc = "---" ++ nl
             ++ "created: " ++ now e (ticks w) ++ nl
             ++ "generated_by: " ++ script e ++ nl
             ++ "tags: " ++ join ", " tl ++ nl
             ++ "POV: " ++ fmt (POV c) ++ nl
             ++ "Arc: " ++ fmt (arc c) ++ nl
             ++ "---" ++ nl ++ nl ++ rest /\
     prefix ("# Chapter " ++ fmt k ++ nl) rest = true) /\
  (am = false -> prefix ("# Chapter " ++ fmt k ++ nl) doc = true).
Proof.
  intros Hdoc.
  destruct (chapter_document_ok _ _ _ _ _ _ _ _ _ _ Hdoc)
    as (md & temp & body & _ & _ & -> & Hmd).
  assert (Hhead : forall x,
             prefix ("# Chapter " ++ fmt k ++ nl)
                    ("# Chapter " ++ fmt k ++ nl ++ x) = true).
  { intros x. rewrite 2 prefix_app_cancel. apply prefix_append. }
  destruct Hmd as [(-> & -> & _) | (-> & _ & tl & -> & ->)].
  - split; [|split].
    + split; intros H; discriminate H.
    + intros H; discriminate H.
    + intros _. apply Hhead.
  - split; [|split].
    + split; intros _; reflexivity.
    + intros _. exists tl. eexists. split; [reflexivity|]. split.
      * unfold metadata_block. rewrite !append_assoc. reflexivity.
      * apply Hhead.
    + intros H; discriminate H.
Qed.

(** ** Runs *)

Section Runs.

Lemma attempts_app (a b : list event) :
  attempts (a ++ b)%list = (attempts a ++ attempts b)%list.
Proof. apply flat_map_app. Qed.

Lemma attempts_emit_log (ev : event) (w : world) :
  match ev with
  | FileWritten _ _ | FileFailed _ _ _ => False
  | _ => True
  end ->
  attempts (trace (emit ev w)) = attempts (trace w).
Proof.
  intros H. cbn [emit trace]. rewrite attempts_app.
  destruct ev; try (elim H); simpl; apply app_nil_r.
Qed.

(** With the directory there, or creatable, [write_markdown] returns
    normally after one call of [open]. *)
Lemma write_markdown_attempt (e : env) (fp out content : string) (w : world) :
  existsb (String.eqb out) (dirs w) = true \/ makedirs_err e out = None ->
  exists w',
    write_markdown e fp out content w = (Ok tt, w') /\
    attempts (trace w') =
      (attempts (trace w) ++ [(md_path out fp, content)])%list /\
    existsb (String.eqb out) (dirs w') = true /\
    ticks w' = ticks w.
Proof.
  intros Hdir. unfold write_markdown. cbn [emit dirs].
  destruct (existsb (String.eqb out) (dirs w)) eqn:Ex.
  - destruct (write_err e _ content); eexists; (split; [reflexivity|]);
      cbn [emit mkdir trace dirs ticks]; rewrite ?attempts_app; simpl;
      rewrite ?app_nil_r; auto.
  - destruct Hdir as [Hdir|Hdir]; [discriminate|]. rewrite Hdir.
    destruct (write_err e _ content); eexists; (split; [reflexivity|]);
      cbn [emit mkdir trace dirs ticks existsb]; rewrite ?attempts_app; simpl;
      rewrite ?app_nil_r, String.eqb_refl; auto.
Qed.

Lemma column_ok (label : string) (rs : list row) (xs : list cell) (r : row) :
  column label rs = map Ok xs -> In r rs -> exists x, row_get label r = Ok x.
Proof.
  intros H Hr. apply (in_map (row_get label)) in Hr.
  unfold column in H. rewrite H in Hr. apply in_map_iff in Hr.
  destruct Hr as (x & Hx & _). now exists x.
Qed.

Lemma render_scene_total (rs : list row) (c : chapter_data)
      (pov temp : cell) (i : nat) :
  agrees rs c -> text_locations rs -> i < List.length rs ->
  exists text, render_scene c pov temp i = Ok text.
Proof.
  intros Hag Htext Hi.
  destruct (nth_error rs i) as [r|] eqn:Er;
    [|apply nth_error_None in Er; lia].
  rewrite (render_scene_row _ _ _ _ _ _ Hag Er).
  assert (Hin : In r rs) by (eapply nth_error_In; eassumption).
  destruct Hag. unfold row_section.
  destruct (column_ok _ _ _ _ ag_time0 Hin) as [? ->].
  destruct (column_ok _ _ _ _ ag_day0 Hin) as [? ->].
  destruct (column_ok _ _ _ _ ag_week0 Hin) as [? ->].
  destruct (column_ok _ _ _ _ ag_weather0 Hin) as [? ->].
  destruct (column_ok _ _ _ _ ag_uniform0 Hin) as [? ->].
  destruct (column_ok _ _ _ _ ag_descriptions0 Hin) as [? ->].
  destruct (Htext r Hin) as [s ->].
  cbn [bind render_setting]. eexists. reflexivity.
Qed.

Lemma render_scenes_total (rs : list row) (c : chapter_data)
      (pov temp : cell) (idx : list nat) :
  agrees rs c -> text_locations rs ->
  (forall i, In i idx -> i < List.length rs) ->
  forall sn, exists body sn',
    render_scenes c pov temp idx sn = (Ok body, sn').
Proof.
  intros Hag Htext. induction idx as [|i idx IH]; intros Hidx sn.
  - exists "", sn. reflexivity.
  - cbn [render_scenes].
    destruct (render_scene_total rs c pov temp i Hag Htext) as [text ->].
    { apply Hidx. now left. }
    destruct (IH (fun j Hj => Hidx j (or_intror Hj)) (Some (i + 1)))
      as (more & sn' & ->).
    now exists (text ++ more), sn'.
Qed.

(** A chapter that holds at least one row, all with text locations, gets
    its document, and [scene_number] is assigned afterwards. *)
Lemma chapter_document_total (e : env) (tags : option (list string))
      (am : bool) (k : cell) (rs : list row) (c : chapter_data)
      (sn : option nat) (w : world) :
  agrees rs c -> rs <> [] -> text_locations rs ->
  (am = true -> tags <> None) ->
  exists doc n w',
    chapter_document e tags am k c sn w = (Ok doc, Some n, w') /\
    dirs w' = dirs w /\ trace w' = trace w.
Proof.
  intros Hag Hne Htext Htags.
  destruct (exists_last Hne) as (pre & r & Hrs).
  destruct (ag_last _ _ Hag pre r Hrs) as (_ & _ & Htemp).
  destruct (temperature c) as [temp|] eqn:Et; [|discriminate Htemp].
  destruct (render_scenes_total rs c (POV c) temp
              (seq 0 (List.length (scenes c))) Hag Htext) with (sn := sn)
    as (body & sn' & Hr).
  { intros i Hi. apply in_seq in Hi. rewrite (ag_scenes _ _ Hag), length_seq in Hi.
    lia. }
  assert (Hsn : exists n, sn' = Some n).
  { rewrite (render_scenes_number _ _ _ _ _ _ _ Hr).
    rewrite (ag_scenes _ _ Hag), length_seq, Hrs, last_length.
    cbn [seq]. eexists. reflexivity. }
  destruct Hsn as [n ->].
  unfold chapter_document. rewrite Et, Hr.
  destruct am.
  - destruct tags as [tl|]; [|now elim (Htags eq_refl)].
    rewrite add_metadata_empty. do 3 eexists.
    split; [reflexivity|]. split; reflexivity.
  - do 3 eexists. split; [reflexivity|]. split; reflexivity.
Qed.

(** Chapters that can all be rendered are all handed to [open], in dict
    order, one call each, and the loop runs to its end. *)
Lemma chapters_loop_total (e : env) (tags : option (list string))
      (out : string) (am : bool) (items : chapters) :
  (forall k c, In (k, c) items ->
               exists rs, rs <> [] /\ agrees rs c /\ text_locations rs) ->
  (am = true -> tags <> None) ->
  forall sn w,
    dir_available e out w ->
    exists w' docs,
      chapters_loop e tags out am items sn w = (Done, w') /\
      attempts (trace w') = (attempts (trace w) ++ docs)%list /\
      map fst docs = map (fun kc => chapter_path out (fst kc)) items.
Proof.
  intros Hitems Htags. induction items as [|[k c] items IH]; intros sn w Hdir.
  - exists w, []. cbn. now rewrite app_nil_r.
  - destruct (Hitems k c (or_introl eq_refl)) as (rs & Hne & Hag & Htext).
    destruct (chapter_document_total e tags am k rs c sn w Hag Hne Htext Htags)
      as (doc & n & w1 & Hdoc & Hd1 & Ht1).
    cbn [chapters_loop]. rewrite Hdoc.
    set (w2 := emit _ w1).
    destruct (write_markdown_attempt e ("Chapter " ++ fmt k) out doc w2)
      as (w3 & Hw & Hatt & Hd3 & _).
    { unfold dir_available in Hdir. subst w2. cbn [emit dirs].
      now rewrite Hd1. }
    rewrite Hw.
    destruct (IH (fun k' c' H => Hitems k' c' (or_intror H)) (Some n) w3)
      as (w' & docs & Hloop & Hatt' & Hpaths).
    { left. exact Hd3. }
    exists w', ((md_path out ("Chapter " ++ fmt k), doc) :: docs).
    split; [exact Hloop|]. split.
    + rewrite Hatt', Hatt. subst w2. rewrite attempts_emit_log by exact I.
      rewrite Ht1, <- app_assoc. reflexivity.
    + cbn [map fst]. now rewrite Hpaths.
Qed.

End Runs.

(** ** Documents and chapters *)

Section Counting.

Lemma rows_of_nonempty (k : cell) (df : list row) :
  rows_of k df <> [] <-> In k (chapter_keys df).
Proof.
  induction df as [|r df IH]; simpl.
  - tauto.
  - destruct (row_get "Chapter" r) as [c|ex]; [|exact IH].
    destruct (cell_eqb c k) eqn:E; simpl.
    + apply cell_eqb_eq in E. split; [now left | discriminate].
    + apply cell_eqb_neq in E. rewrite IH. split; [now right|].
      intros [H|H]; [contradiction | exact H].
Qed.

Lemma aggregated_keys (df : list row) (d : chapters) (k : cell) :
  aggregated df d -> (In k (map fst d) <-> In k (chapter_keys df)).
Proof.
  intros [_ Hall]. specialize (Hall k). rewrite <- rows_of_nonempty.
  destruct (dict_get k d) as [c|] eqn:E.
  - destruct Hall as [Hne _]. split; [intros _; exact Hne|].
    intros _. apply dict_get_in in E.
    change k with (fst (k, c)). now apply in_map.
  - apply dict_get_none in E. rewrite Hall. split; [contradiction|].
    intros H. now elim H.
Qed.

(** The dict has one entry per chapter key that occurs in the rows. *)
Lemma aggregated_count (df : list row) (d : chapters) :
  aggregated df d -> List.length d = List.length (distinct_keys df).
Proof.
  intros Hag. rewrite <- (length_map fst d). unfold distinct_keys.
  apply Nat.le_antisymm; apply NoDup_incl_length.
  - apply Hag.
  - intros k Hk. apply nodup_In. now apply (aggregated_keys df d k).
  - apply NoDup_nodup.
  - intros k Hk. apply nodup_In in Hk. now apply (aggregated_keys df d k).
Qed.

Lemma rows_of_incl (k : cell) (df : list row) (r : row) :
  In r (rows_of k df) -> In r df.
Proof.
  unfold rows_of. intros H. apply filter_In in H. apply H.
Qed.

End Counting.

(** C5, as amended.  When every row aggregates without exception, every
    [Location] cell is a text, a tag list is given if metadata is asked
    for, and the output directory exists or can be created, [main] ends
    normally after calling [open] once per chapter: as many documents as
    there are distinct chapter keys in the rows. *)
Theorem documents_per_chapter (e : env) (df : list row) (n : option nat)
        (tags : option (list string)) (am : bool) (out : string) (w : world) :
  (exists d, parse_rows df [] = Ok d) ->
  text_locations df ->
  (am = true -> tags <> None) ->
  dir_available e out w ->
  exists w' docs,
    main e df n tags am out w = (Ok tt, w') /\
    attempts (trace w') = (attempts (trace w) ++ docs)%list /\
    List.length docs = List.length (distinct_keys df).
Proof.
  intros [d Hp] Htext Htags Hdir.
  pose proof (parse_rows_aggregated _ _ Hp) as Hag.
  unfold main, parse_scenes. rewrite Hp.
  cbv beta iota zeta. unfold generate_markdown_content.
  match goal with
  | |- context [chapters_loop e tags out am d None ?w0] => set (w1 := w0)
  end.
  destruct (chapters_loop_total e tags out am d) with (sn := @None nat) (w := w1)
    as (w' & docs & Hloop & Hatt & Hpaths).
  - intros k c Hin. exists (rows_of k df).
    destruct Hag as [Hnd Hall]. specialize (Hall k).
    rewrite (in_dict_get _ _ _ Hnd Hin) in Hall. destruct Hall as [Hne Hagk].
    split; [exact Hne|]. split; [exact Hagk|].
    intros r Hr. apply Htext. eapply rows_of_incl; eassumption.
  - exact Htags.
  - exact Hdir.
  - rewrite Hloop. exists w', docs. split; [reflexivity|]. split.
    + rewrite Hatt. subst w1. now rewrite !attempts_emit_log by exact I.
    + rewrite <- (length_map fst docs), Hpaths, length_map.
      now apply aggregated_count.
Qed.

Lemma documents_per_chapter_witness :
  exists w' docs,
    main calm forest_rows (Some 3) (Some ["draft"; "plan"]) true "notes" fresh
      = (Ok tt, w') /\
    attempts (trace w') = (attempts (trace fresh) ++ docs)%list /\
    List.length docs = List.length (distinct_keys forest_rows).
Proof.
  apply (documents_per_chapter calm forest_rows).
  - eexists. reflexivity.
  - intros r Hr. exists "Forest - Clearing, River".
    destruct Hr as [<-|[<-|[<-|[]]]]; reflexivity.
  - discriminate.
  - right. reflexivity.
Defined.

(** C5 as written fails: with a number in a [Location] cell of the second
    chapter, the two chapter keys of the sheet yield a single document. *)
Lemma documents_per_chapter_counterexample :
  let w' := snd (main calm room_rows (Some 2) (Some ["draft"]) false "notes"
                      fresh) in
  List.length (attempts (trace w')) = 1 /\
  List.length (distinct_keys room_rows) = 2 /\
  List.length (attempts (trace w')) <> List.length (distinct_keys room_rows).
Proof.
  vm_compute. repeat split; discriminate.
Qed.

(** C7.  When the rows [pre] aggregate into [d] and the next row raises,
    [main] raises as well, whatever rows follow: the only traces of the
    run are the opening log line and the printed and logged error, so the
    chapters already held in [d] are not rendered, no directory is made
    and [open] is never called. *)
Theorem aggregation_fault_is_fatal (e : env) (pre post : list row) (bad : row)
        (d : chapters) (ex : exn) (n : option nat)
        (tags : option (list string)) (am : bool) (out : string) (w : world) :
  parse_rows pre [] = Ok d ->
  parse_row bad d = Raise ex ->
  let msg := "Error: An error occurred while parsing scenes: " ++ exn_str ex in
  let run := main e (pre ++ bad :: post)%list n tags am out w in
  run = (Raise (TypeError "object of type 'NoneType' has no len()"),
         emit (LogError msg)
              (emit (Print msg)
                    (emit (LogInfo ("Parsing " ++ fmt_count n ++ " scenes.")) w)))
  /\ attempts (trace (snd run)) = attempts (trace w)
  /\ dirs (snd run) = dirs w.
Proof.
  intros Hpre Hbad msg run.
  assert (Hrun : run = (Raise (TypeError "object of type 'NoneType' has no len()"),
                        emit (LogError msg)
                             (emit (Print msg)
                                   (emit (LogInfo ("Parsing " ++ fmt_count n
                                                     ++ " scenes.")) w)))).
  { unfold run, main, parse_scenes.
    rewrite parse_rows_app, Hpre. cbn [bind parse_rows]. rewrite Hbad.
    reflexivity. }
  split; [exact Hrun|]. rewrite Hrun. cbn [snd]. split.
  - now rewrite !attempts_emit_log by exact I.
  - reflexivity.
Qed.

Lemma aggregation_fault_is_fatal_witness :
  let msg := "Error: An error occurred while parsing scenes: 'Weather'" in
  let run := main calm ragged_rows (Some 3) (Some ["draft"]) false "notes" fresh in
  run = (Raise (TypeError "object of type 'NoneType' has no len()"),
         emit (LogError msg)
              (emit (Print msg) (emit (LogInfo "Parsing 3 scenes.") fresh)))
  /\ attempts (trace (snd run)) = attempts (trace fresh)
  /\ dirs (snd run) = dirs fresh.
Proof.
  eapply (aggregation_fault_is_fatal calm
           [sample_row 1 (Str "1") (Str "Hall")]
           [sample_row 2 (Str "3") (Str "Gym")]
           [("Week", Int 1); ("Arc", Int 1); ("Chapter", Str "2");
            ("Location", Str "Yard"); ("Uniform", Str "Summer kit");
            ("Time", Str "10:00")]
           _ (KeyError "Weather") (Some 3) (Some ["draft"]) false "notes" fresh);
    reflexivity.
Defined.

(** ** The forest example *)

Section Forest.

Variables (e : env) (tags : option (list string)) (am : bool)
          (out : string) (w : world) (n : option nat).
Variables (o1 o2 o3 : other_cells).

Lemma forest_aggregate :
  parse_rows [forest_row o1; forest_row o2; forest_row o3] []
  = Ok [(Str "1", forest_chapter o1 o2 o3)].
Proof. reflexivity. Qed.

Lemma forest_document (sn : option nat) (w0 : world) :
  ticks w0 = ticks w ->
  (am = true -> tags <> None) ->
  chapter_document e tags am (Str "1") (forest_chapter o1 o2 o3) sn w0
  = (Ok (forest_doc e tags am w o1 o2 o3), Some 3, if am then tick w0 else w0).
Proof.
  intros Ht Htags. unfold chapter_document.
  unfold forest_doc, forest_section, metadata_block. rewrite <- Ht.
  destruct am; [destruct tags as [tl|]; [|now exfalso; apply Htags] |];
    try rewrite add_metadata_empty;
    cbv -[append fmt now script join ticks tick
          o_week o_arc o_uniform o_time o_weather o_day o_description
          o_pov o_temp];
    rewrite !append_assoc; reflexivity.
Qed.


End Forest.

(** ** Failed writes *)

Section WriteFailures.

Lemma failures_logged_app (out : string) (a b : list event) :
  failures_logged out a -> failures_logged out b ->
  failures_logged out (a ++ b)%list.
Proof.
  intros Ha Hb. induction a as [|ev a IH]; [exact Hb|].
  destruct ev; cbn [failures_logged app] in *; try (now apply IH).
  destruct Ha as [(fp & rest' & Hp & Hrest) Ha]. split; [|now apply IH].
  exists fp, (rest' ++ b)%list. split; [exact Hp|]. now rewrite Hrest.
Qed.

Lemma made_app (out : string) (a b : list event) :
  made out (a ++ b)%list = made out a || made out b.
Proof. apply existsb_app. Qed.

Lemma written_app (a b : list event) :
  written (a ++ b)%list = (written a ++ written b)%list.
Proof. apply flat_map_app. Qed.

(** One call of [write_markdown] with the directory there or creatable:
    it returns normally after exactly one call of [open]; a failed write
    is followed by its message; [os.makedirs] is called, right after the
    opening log line, exactly when the directory was absent. *)
Lemma write_markdown_run (e : env) (fp out content : string) (w : world) :
  dir_available e out w ->
  exists w' new,
    write_markdown e fp out content w = (Ok tt, w') /\
    trace w' = (trace w ++ new)%list /\
    attempts new = [(md_path out fp, content)] /\
    written new = let_through e (attempts new) /\
    failures_logged out new /\
    present out w' = true /\
    (present out w = true -> made out new = false) /\
    (present out w = false ->
     exists info post, new = LogInfo info :: MakeDirs out :: post).
Proof.
  intros Hdir. unfold write_markdown, present, dir_available in *.
  cbn [emit dirs].
  destruct (existsb (String.eqb out) (dirs w)) eqn:Ex.
  - destruct (write_err e (md_path out fp) content) as [ex|] eqn:Ew;
      do 2 eexists; (split; [reflexivity|]);
      cbn [emit trace dirs]; rewrite <- ?app_assoc; cbn [app];
      (split; [reflexivity|]);
      cbn [failures_logged made existsb written attempts flat_map
           let_through filter app fst snd];
      rewrite ?Ew, ?Ex; repeat split; eauto; discriminate.
  - destruct Hdir as [Hdir|Hdir]; [discriminate|]. rewrite Hdir.
    destruct (write_err e (md_path out fp) content) as [ex|] eqn:Ew;
      do 2 eexists; (split; [reflexivity|]);
      cbn [emit mkdir trace dirs]; rewrite <- ?app_assoc; cbn [app];
      (split; [reflexivity|]);
      cbn [failures_logged made existsb written attempts flat_map
           let_through filter app fst snd orb];
      rewrite ?Ew, ?String.eqb_refl; repeat split; eauto; discriminate.
Qed.

Lemma chapter_document_world (e : env) (tags : option (list string))
      (am : bool) (k : cell) (c : chapter_data) (sn : option nat)
      (w : world) :
  trace (snd (chapter_document e tags am k c sn w)) = trace w /\
  dirs (snd (chapter_document e tags am k c sn w)) = dirs w.
Proof.
  unfold chapter_document.
  destruct am; [destruct tags as [tl|]|]; rewrite ?add_metadata_empty;
    destruct (temperature c) as [temp|];
    try destruct (render_scenes c (POV c) temp _ sn) as [[body|ex] sn1];
    split; reflexivity.
Qed.

(** The chapter loop over chapters that can all be rendered, with the
    directory there or creatable: every chapter is handed to [open], in
    dict order, whichever of the writes fail. *)
Lemma chapters_loop_run (e : env) (tags : option (list string))
      (out : string) (am : bool) (items : chapters) :
  (forall k c, In (k, c) items -> renderable c) ->
  (am = true -> tags <> None) ->
  forall sn w,
    dir_available e out w ->
    exists w' new,
      chapters_loop e tags out am items sn w = (Done, w') /\
      trace w' = (trace w ++ new)%list /\
      map fst (attempts new) = map (chapter_path out) (map fst items) /\
      written new = let_through e (attempts new) /\
      failures_logged out new /\
      (present out w = true -> made out new = false) /\
      (present out w = false -> items <> [] ->
       exists pre post,
         new = (pre ++ MakeDirs out :: post)%list /\ attempts pre = []).
Proof.
  intros Hitems Htags. induction items as [|[k c] items IH]; intros sn w Hdir.
  - exists w, []. cbn. rewrite app_nil_r. repeat split. intros _ H. now elim H.
  - destruct (Hitems k c (or_introl eq_refl)) as (rs & Hne & Hag & Htext).
    destruct (chapter_document_total e tags am k rs c sn w Hag Hne Htext Htags)
      as (doc & n & w1 & Hdoc & Hd1 & Ht1).
    cbn [chapters_loop]. rewrite Hdoc.
    set (line := LogInfo _). set (w2 := emit line w1).
    assert (Hp2 : present out w2 = present out w).
    { unfold present, w2. cbn [emit dirs]. now rewrite Hd1. }
    destruct (write_markdown_run e ("Chapter " ++ fmt k) out doc w2)
      as (w3 & new1 & Hw & Ht3 & Hatt1 & Hwr1 & Hf1 & Hp3 & Hmade1 & Hmk1).
    { unfold dir_available in *. subst w2. cbn [emit dirs]. now rewrite Hd1. }
    rewrite Hw.
    destruct (IH (fun k' c' H => Hitems k' c' (or_intror H)) (Some n) w3)
      as (w' & new2 & Hloop & Ht' & Hpaths & Hwr2 & Hf2 & Hmade2 & _).
    { left. exact Hp3. }
    exists w', ([line] ++ new1 ++ new2)%list.
    split; [exact Hloop|]. split.
    { rewrite Ht', Ht3. unfold w2. cbn [emit trace].
      now rewrite Ht1, <- !app_assoc. }
    split.
    { rewrite !attempts_app, Hatt1. cbn [map fst app attempts flat_map line].
      now rewrite Hpaths. }
    split.
    { unfold let_through in *.
      now rewrite !written_app, !attempts_app, !filter_app, Hwr1, Hwr2. }
    split.
    { apply failures_logged_app; [exact I|].
      now apply failures_logged_app. }
    split.
    { intros Hp. rewrite !made_app, (Hmade2 Hp3).
      rewrite Hp2 in Hmade1. now rewrite (Hmade1 Hp). }
    intros Hp _. rewrite Hp2 in Hmk1.
    destruct (Hmk1 Hp) as (info & post1 & ->).
    exists [line; LogInfo info], (post1 ++ new2)%list. split; reflexivity.
Qed.

(** What [parse_scenes] builds from rows with text locations can be
    rendered, chapter by chapter. *)
Lemma parsed_renderable (df : list row) (d : chapters) :
  parse_rows df [] = Ok d -> text_locations df ->
  forall k c, In (k, c) d -> renderable c.
Proof.
  intros Hp Htext k c Hin. exists (rows_of k df).
  destruct (parse_rows_aggregated _ _ Hp) as [Hnd Hall]. specialize (Hall k).
  rewrite (in_dict_get _ _ _ Hnd Hin) in Hall. destruct Hall as [Hne Hagk].
  split; [exact Hne|]. split; [exact Hagk|].
  intros r Hr. apply Htext. eapply rows_of_incl; eassumption.
Qed.

(** An output directory given by an absolute path: the file is asked for
    under the current directory, at ["./"] followed by that path, while
    [os.makedirs] is given the path itself. *)
Lemma absolute_output_dir (out : string) (k : cell) :
  relative out = false -> prefix ".//" (chapter_path out k) = true.
Proof.
  unfold relative, chapter_path, md_path. destruct out as [|a out].
  - discriminate.
  - cbn [prefix negb]. destruct (Ascii.ascii_dec "/" a) as [<-|]; [|discriminate].
    intros _. cbn. destruct (Ascii.ascii_dec "." "."); [|congruence].
    destruct (Ascii.ascii_dec "/" "/"); [|congruence].
    now destruct (out ++ _).
Qed.

(** The text of a chapter depends on the environment through the clock
    and the script name only. *)
Lemma chapter_document_same (e1 e2 : env) (tags : option (list string))
      (am : bool) (k : cell) (c : chapter_data) (sn : option nat)
      (w1 w2 : world) :
  now e1 = now e2 -> script e1 = script e2 -> same_view w1 w2 ->
  fst (chapter_document e1 tags am k c sn w1)
    = fst (chapter_document e2 tags am k c sn w2) /\
  same_view (snd (chapter_document e1 tags am k c sn w1))
            (snd (chapter_document e2 tags am k c sn w2)).
Proof.
  intros Hnow Hscript (Hd & Ht & Ha). unfold chapter_document.
  destruct am; [destruct tags as [tl|]|]; rewrite ?add_metadata_empty;
    unfold metadata_block; rewrite ?Hnow, ?Hscript, ?Ht;
    destruct (temperature c) as [temp|];
    try destruct (render_scenes c (POV c) temp _ sn) as [[body|ex] sn1];
    cbn [fst snd]; (split; [reflexivity|]);
    repeat split; cbn [tick dirs ticks trace]; congruence.
Qed.

(** Whether a write fails changes neither what [write_markdown] returns
    nor what it asked the disk for. *)
Lemma write_markdown_same (e1 e2 : env) (fp out content : string)
      (w1 w2 : world) :
  makedirs_err e1 = makedirs_err e2 -> same_view w1 w2 ->
  fst (write_markdown e1 fp out content w1)
    = fst (write_markdown e2 fp out content w2) /\
  same_view (snd (write_markdown e1 fp out content w1))
            (snd (write_markdown e2 fp out content w2)).
Proof.
  intros Hmk (Hd & Ht & Ha). unfold write_markdown. cbn [emit dirs].
  rewrite Hmk, Hd.
  destruct (existsb (String.eqb out) (dirs w2)).
  - destruct (write_err e1 _ content), (write_err e2 _ content);
      cbn [fst snd]; (split; [reflexivity|]); unfold same_view;
      cbn [emit dirs ticks trace]; rewrite !attempts_app, Ha;
      repeat split; try assumption;
      cbn [attempts flat_map app]; rewrite ?app_nil_r; reflexivity.
  - destruct (makedirs_err e2 out).
    + cbn [fst snd]. split; [reflexivity|]. unfold same_view.
      cbn [emit dirs ticks trace]. rewrite !attempts_app, Ha.
      repeat split; try assumption;
      cbn [attempts flat_map app]; rewrite ?app_nil_r; reflexivity.
    + destruct (write_err e1 _ content), (write_err e2 _ content);
        cbn [fst snd]; (split; [reflexivity|]); unfold same_view;
        cbn [emit mkdir dirs ticks trace]; rewrite !attempts_app, Ha, Hd;
        repeat split; try assumption;
      cbn [attempts flat_map app]; rewrite ?app_nil_r; reflexivity.
Qed.

Lemma same_view_emit (ev : event) (w1 w2 : world) :
  same_view w1 w2 -> same_view (emit ev w1) (emit ev w2).
Proof.
  intros (Hd & Ht & Ha). unfold same_view. cbn [emit dirs ticks trace].
  rewrite !attempts_app, Ha. repeat split; assumption.
Qed.

(** The chapter loop ends the same way and hands the same documents to
    [open], whichever of the writes fail. *)
Lemma chapters_loop_same (e1 e2 : env) (tags : option (list string))
      (out : string) (am : bool) (items : chapters) :
  now e1 = now e2 -> script e1 = script e2 ->
  makedirs_err e1 = makedirs_err e2 ->
  forall sn w1 w2,
    same_view w1 w2 ->
    fst (chapters_loop e1 tags out am items sn w1)
      = fst (chapters_loop e2 tags out am items sn w2) /\
    same_view (snd (chapters_loop e1 tags out am items sn w1))
              (snd (chapters_loop e2 tags out am items sn w2)).
Proof.
  intros Hnow Hscript Hmk.
  induction items as [|[k c] items IH]; intros sn w1 w2 Hv.
  - cbn. now split.
  - cbn [chapters_loop].
    pose proof (chapter_document_same e1 e2 tags am k c sn w1 w2
                  Hnow Hscript Hv) as [Hr Hv1].
    destruct (chapter_document e1 tags am k c sn w1) as [[r sn1] u1].
    destruct (chapter_document e2 tags am k c sn w2) as [[r' sn2] u2].
    cbn [fst snd] in Hr, Hv1. injection Hr as <- <-.
    destruct r as [doc|ex]; [|now split].
    destruct sn1 as [n|]; [|now split].
    set (line := LogInfo _).
    pose proof (write_markdown_same e1 e2 ("Chapter " ++ fmt k) out doc
                  (emit line u1) (emit line u2) Hmk
                  (same_view_emit line u1 u2 Hv1)) as [Hr2 Hv2].
    destruct (write_markdown e1 _ out doc (emit line u1)) as [r1 v1].
    destruct (write_markdown e2 _ out doc (emit line u2)) as [r2 v2].
    cbn [fst snd] in Hr2, Hv2. subst r2.
    destruct r1 as [u|ex]; [|now split].
    now apply IH.
Qed.

End WriteFailures.


(** With the file of chapter 1 locked, the run still ends normally, asks
    for both files and writes the one of chapter 2. *)
Example locked_chapter_run :
  let run := main locked hall_rows (Some 2) None false "notes" fresh in
  fst run = Ok tt /\
  map fst (attempts (trace (snd run)))
    = ["./notes/Chapter 1.md"; "./notes/Chapter 2.md"] /\
  map fst (written (trace (snd run))) = ["./notes/Chapter 2.md"] /\
  made "notes" (trace (snd run)) = true.
Proof. vm_compute. repeat split. Qed.

(** ** The word-frequency aggregator *)

Section WordCounts.

Import Words.

Variable py_int : string -> option Z.

Lemma read_file_csv (st : state) (fn : string) (rows : list (list string)) :
  endswith fn ".csv" = true ->
  read_file py_int st (fn, rows) = fold_left (read_row py_int fn) rows st.
Proof. intros H. unfold read_file. now rewrite H. Qed.

Lemma read_row_skip (fn : string) (st : state) (word count : string) :
  py_int count = None ->
  read_row py_int fn st [word; count]
  = (fst st,
     (snd st ++ [skip_message fn [word; count]])%list).
Proof. intros H. unfold read_row. now rewrite H. Qed.

(** What is printed is added at the end of what was printed before. *)
Lemma read_rows_out (fn : string) (rows : list (list string)) :
  forall wc out,
    fold_left (read_row py_int fn) rows (wc, out)
    = (fst (fold_left (read_row py_int fn) rows (wc, [])),
       (out ++ snd (fold_left (read_row py_int fn) rows (wc, [])))%list).
Proof.
  induction rows as [|row rows IH]; intros wc out.
  - cbn. now rewrite app_nil_r.
  - cbn [fold_left].
    assert (Hrow : read_row py_int fn (wc, out) row
                   = (fst (read_row py_int fn (wc, []) row),
                      (out ++ snd (read_row py_int fn (wc, []) row))%list)).
    { unfold read_row. destruct row as [|a [|b [|c row]]];
        cbn [fst snd]; rewrite ?app_nil_r; try reflexivity.
      destruct (py_int b); cbn [fst snd]; now rewrite ?app_nil_r. }
    rewrite Hrow.
    destruct (read_row py_int fn (wc, []) row) as [wc1 out1]. cbn [fst snd].
    rewrite (IH wc1 (out ++ out1)%list), (IH wc1 out1).
    cbn [fst snd]. now rewrite app_assoc.
Qed.

Lemma read_files_out (folder : list csv_file) :
  forall wc out,
    fold_left (read_file py_int) folder (wc, out)
    = (fst (fold_left (read_file py_int) folder (wc, [])),
       (out ++ snd (fold_left (read_file py_int) folder (wc, [])))%list).
Proof.
  induction folder as [|[fn rows] folder IH]; intros wc out.
  - cbn. now rewrite app_nil_r.
  - cbn [fold_left].
    assert (Hfile : read_file py_int (wc, out) (fn, rows)
                    = (fst (read_file py_int (wc, []) (fn, rows)),
                       (out ++ snd (read_file py_int (wc, []) (fn, rows)))%list)).
    { unfold read_file. destruct (endswith fn ".csv").
      - apply read_rows_out.
      - cbn. now rewrite app_nil_r. }
    rewrite Hfile.
    destruct (read_file py_int (wc, []) (fn, rows)) as [wc1 out1].
    cbn [fst snd].
    rewrite (IH wc1 (out ++ out1)%list), (IH wc1 out1).
    cbn [fst snd]. now rewrite app_assoc.
Qed.

Lemma lookup_add_count (word w : string) (n : Z) (wc : word_counts) :
  lookup word (add_count w n wc) =
  if String.eqb word w
  then Some (match lookup word wc with
             | Some m => m + n
             | None => 0 + n
             end)%Z
  else lookup word wc.
Proof.
  induction wc as [|[w0 m0] wc IH]; cbn [add_count lookup].
  - destruct (String.eqb word w); reflexivity.
  - destruct (String.eqb w w0) eqn:E; cbn [lookup].
    + apply String.eqb_eq in E. subst w0.
      destruct (String.eqb word w); reflexivity.
    + destruct (String.eqb word w0) eqn:E0.
      * apply String.eqb_eq in E0. subst w0.
        rewrite String.eqb_sym, E. reflexivity.
      * exact IH.
Qed.

(** Looking a word up after adding entries: what was there plus the
    counts entered for that word. *)
Lemma lookup_apply_entries (word : string) (es : list (string * Z)) :
  forall wc,
    lookup word (apply_entries es wc) =
    match lookup word wc with
    | Some m =>
        Some (m + fold_right Z.add 0
                    (map snd (filter (fun e => String.eqb word (fst e)) es)))%Z
    | None => total word es
    end.
Proof.
  unfold apply_entries, total.
  induction es as [|[w n] es IH]; intros wc; cbn [fold_left filter fst snd].
  - cbn. destruct (lookup word wc); [now rewrite Z.add_0_r | reflexivity].
  - rewrite IH, lookup_add_count.
    destruct (String.eqb word w).
    + cbn [map fold_right snd].
      destruct (lookup word wc); f_equal; lia.
    + destruct (lookup word wc); reflexivity.
Qed.

Lemma entries_app (a b : list (string * list string)) :
  entries py_int (a ++ b)%list = (entries py_int a ++ entries py_int b)%list.
Proof. apply flat_map_app. Qed.

Lemma skipped_app (a b : list (string * list string)) :
  skipped py_int (a ++ b)%list = (skipped py_int a ++ skipped py_int b)%list.
Proof. unfold skipped. now rewrite filter_app, map_app. Qed.

Lemma apply_entries_app (a b : list (string * Z)) (wc : word_counts) :
  apply_entries (a ++ b)%list wc = apply_entries b (apply_entries a wc).
Proof. apply fold_left_app. Qed.

(** One row: its entry, if it has one, and its line, if it is reported. *)
Lemma read_row_spec (fn : string) (wc : word_counts) (out : list string)
      (row : list string) :
  read_row py_int fn (wc, out) row
  = (apply_entries (entries py_int [(fn, row)]) wc,
     (out ++ skipped py_int [(fn, row)])%list).
Proof.
  unfold read_row, entries, skipped, counted, reported, apply_entries.
  destruct row as [|a [|b [|c row]]]; cbn [fst snd flat_map filter map app fold_left];
    rewrite ?app_nil_r; try reflexivity.
  destruct (py_int b); cbn [fst snd flat_map filter map app fold_left];
    rewrite ?app_nil_r; reflexivity.
Qed.

Lemma read_rows_spec (fn : string) (rows : list (list string)) :
  forall wc out,
    fold_left (read_row py_int fn) rows (wc, out)
    = (apply_entries (entries py_int (map (pair fn) rows)) wc,
       (out ++ skipped py_int (map (pair fn) rows))%list).
Proof.
  induction rows as [|row rows IH]; intros wc out.
  - cbn. now rewrite app_nil_r.
  - cbn [fold_left map]. rewrite read_row_spec, IH.
    change ((fn, row) :: map (pair fn) rows)
      with ([(fn, row)] ++ map (pair fn) rows)%list.
    now rewrite entries_app, skipped_app, apply_entries_app, app_assoc.
Qed.

Lemma read_files_spec (folder : list csv_file) :
  forall wc out,
    fold_left (read_file py_int) folder (wc, out)
    = (apply_entries (entries py_int (csv_rows folder)) wc,
       (out ++ skipped py_int (csv_rows folder))%list).
Proof.
  induction folder as [|[fn rows] folder IH]; intros wc out.
  - cbn. now rewrite app_nil_r.
  - cbn [fold_left csv_rows flat_map fst snd].
    fold (csv_rows folder).
    rewrite entries_app, skipped_app, apply_entries_app.
    unfold read_file. destruct (endswith fn ".csv").
    + rewrite read_rows_spec, IH. now rewrite app_assoc.
    + rewrite IH. reflexivity.
Qed.

End WordCounts.

(** C9.  A two-field row whose count is not a number changes nothing in
    the totals, here or later: the dict returned is the one the folder
    gives without that row.  The rows and files after it are read as
    usual, and the lines printed are those of the folder without the row,
    with the skip message of the row put in at its place. *)
Theorem invalid_count_skipped (py_int : string -> option Z)
        (pre post : list Words.csv_file) (fn : string)
        (rows1 rows2 : list (list string)) (word count : string) :
  py_int count = None ->
  endswith fn ".csv" = true ->
  let msg := "Skipping invalid count for word '" ++ word ++ "' in file " ++ fn in
  let with_row :=
    Words.read_csv_files py_int
      (pre ++ (fn, rows1 ++ [word; count] :: rows2) :: post)%list in
  let without :=
    Words.read_csv_files py_int (pre ++ (fn, rows1 ++ rows2) :: post)%list in
  fst with_row = fst without /\
  exists before after,
    snd without = (before ++ after)%list /\
    snd with_row = (before ++ msg :: after)%list.
Proof.
  intros Hbad Hcsv msg with_row without.
  unfold with_row, without, Words.read_csv_files.
  rewrite !fold_left_app. cbn [fold_left].
  destruct (fold_left (Words.read_file py_int) pre ([], [])) as [wc0 out0].
  rewrite !(read_file_csv py_int _ fn _ Hcsv), !fold_left_app.
  destruct (fold_left (Words.read_row py_int fn) rows1 (wc0, out0))
    as [wc1 out1].
  cbn [fold_left].
  rewrite (read_row_skip py_int fn (wc1, out1) word count Hbad).
  cbn [fst snd]. change (Words.skip_message fn [word; count]) with msg.
  rewrite (read_rows_out py_int fn rows2 wc1 (out1 ++ [msg])%list),
    (read_rows_out py_int fn rows2 wc1 out1).
  destruct (fold_left (Words.read_row py_int fn) rows2 (wc1, [])) as [wc2 out2].
  cbn [fst snd].
  rewrite (read_files_out py_int post wc2 ((out1 ++ [msg]) ++ out2)%list),
    (read_files_out py_int post wc2 (out1 ++ out2)%list).
  destruct (fold_left (Words.read_file py_int) post (wc2, [])) as [wc3 out3].
  cbn [fst snd]. split; [reflexivity|].
  exists out1, (out2 ++ out3)%list. split.
  - now rewrite app_assoc.
  - rewrite <- !app_assoc. reflexivity.
Qed.

Lemma invalid_count_skipped_witness :
  let msg := "Skipping invalid count for word 'cat' in file one.csv" in
  let with_row := Words.read_csv_files Words.int_decimal Words.sample_folder in
  let without :=
    Words.read_csv_files Words.int_decimal
      [("one.csv", [["the"; "3"]; ["the"; "4"]; ["lonely"];
                    ["a"; "1"; "extra"]]);
       ("notes.txt", [["the"; "100"]]);
       ("two.csv", [["cat"; "2"]])] in
  fst with_row = fst without /\
  exists before after,
    snd without = (before ++ after)%list /\
    snd with_row = (before ++ msg :: after)%list.
Proof.
  apply (invalid_count_skipped Words.int_decimal []
           [("notes.txt", [["the"; "100"]]); ("two.csv", [["cat"; "2"]])]
           "one.csv" [["the"; "3"]]
           [["the"; "4"]; ["lonely"]; ["a"; "1"; "extra"]] "cat" "many");
    reflexivity.
Defined.

(** C10.  The dict [read_csv_files] returns holds, for every word, the sum
    of the counts of the rows that have exactly two fields, the second a
    number, and that carry this word; a word without such a row is
    absent.  The lines printed are those of the two-field rows whose count
    is not a number, and nothing else: a row with no field, one field, or
    three and more leaves dict and output as they are. *)
Theorem word_counts_total (py_int : string -> option Z)
        (folder : list Words.csv_file) :
  let rows := Words.csv_rows folder in
  let result := Words.read_csv_files py_int folder in
  (forall word,
      Words.lookup word (fst result)
      = Words.total word (Words.entries py_int rows)) /\
  snd result = Words.skipped py_int rows /\
  (forall fn st,
      Words.read_row py_int fn st [] = st /\
      (forall a, Words.read_row py_int fn st [a] = st) /\
      (forall a b c rest, Words.read_row py_int fn st (a :: b :: c :: rest) = st)).
Proof.
  intros rows result. unfold result, Words.read_csv_files.
  rewrite read_files_spec. cbn [fst snd]. split; [|split].
  - intros word. now rewrite lookup_apply_entries.
  - reflexivity.
  - intros fn st. repeat split.
Qed.

(** On the sample folder: totals per word, one line printed. *)
Example sample_folder_totals :
  Words.read_csv_files Words.int_decimal Words.sample_folder
  = ([("the", 7%Z); ("cat", 2%Z)],
     ["Skipping invalid count for word 'cat' in file one.csv"]).
Proof. reflexivity. Qed.

(** ** The statements on the sample data *)

Lemma aggregate_lengths_witness :
  exists d c,
    parse_rows (firstn 2 forest_rows) [] = Ok d /\
    dict_get (Str "1") d = Some c /\
    (List.length (day c) = 2 /\ List.length (settings c) = 2 /\
     List.length (uniform c) = 2 /\ List.length (weather c) = 2 /\
     List.length (time c) = 2 /\ List.length (descriptions c) = 2 /\
     List.length (scenes c) = 2 /\ List.length (week c) = 2 /\
     scene_counter c = 2 + 1).
Proof.
  do 2 eexists. split; [reflexivity|]. split; [reflexivity|].
  apply (aggregate_lengths forest_rows 2 _ (Str "1") _ eq_refl eq_refl).
Defined.

Lemma scene_sections_witness :
  exists d c doc sn' w',
    parse_rows forest_rows [] = Ok d /\
    dict_get (Str "1") d = Some c /\
    chapter_document calm (Some ["draft"]) true (Str "1") c None fresh
      = (Ok doc, sn', w') /\
    exists md temp sections,
      doc = md ++ "# Chapter " ++ fmt (Str "1") ++ nl ++ "## Scenes" ++ nl
               ++ concat_all sections /\
      md = metadata_block calm ["draft"] (POV c) (arc c) fresh /\
      List.length sections = List.length (rows_of (Str "1") forest_rows) /\
      forall i r,
        nth_error (rows_of (Str "1") forest_rows) i = Some r ->
        exists s, nth_error sections i = Some s /\
                  row_section (POV c) temp (i + 1) r = Ok s /\
                  prefix ("### Scene " ++ dec (i + 1) ++ nl) s = true.
Proof.
  do 5 eexists. split; [reflexivity|]. split; [reflexivity|].
  split; [reflexivity|].
  apply (scene_sections calm (Some ["draft"]) true forest_rows _ (Str "1") _
                        None _ fresh _ _ eq_refl eq_refl eq_refl).
Defined.

Lemma metadata_iff_requested_witness :
  let res := chapter_document calm (Some ["draft"; "plan"]) true (Str "2")
                              yard_chapter None fresh in
  let doc := match fst (fst res) with
             | Ok text => text
             | Raise _ => ""
             end in
  (prefix ("---" ++ nl) doc = true <-> true = true) /\
  (true = true ->
   exists tl rest,
     Some ["draft"; "plan"] = Some tl /\
     doc = "---" ++ nl
             ++ "created: " ++ now calm (ticks fresh) ++ nl
             ++ "generated_by: " ++ script calm ++ nl
             ++ "tags: " ++ join ", " tl ++ nl
             ++ "POV: " ++ fmt (POV yard_chapter) ++ nl
             ++ "Arc: " ++ fmt (arc yard_chapter) ++ nl
             ++ "---" ++ nl ++ nl ++ rest /\
     prefix ("# Chapter " ++ fmt (Str "2") ++ nl) rest = true) /\
  (true = false -> prefix ("# Chapter " ++ fmt (Str "2") ++ nl) doc = true).
Proof.
  intros res doc.
  apply (metadata_iff_requested calm (Some ["draft"; "plan"]) true (Str "2")
                                yard_chapter None (snd (fst res)) fresh
                                (snd res) doc).
  reflexivity.
Defined.

(** The script's default, no metadata and no tag list: the document
    begins with the chapter heading. *)
Example plain_document_start :
  exists rest,
    fst (fst (chapter_document calm None false (Str "2") yard_chapter None
                               fresh))
    = Ok ("# Chapter 2" ++ nl ++ "## Scenes" ++ nl ++ "### Scene 1" ++ nl ++ rest).
Proof. eexists. reflexivity. Qed.

Example hall_rows_aggregate :
  exists c, parse_rows hall_rows [] = Ok [(Str "1", c); (Str "2", yard_chapter)].
Proof. eexists. reflexivity. Qed.



(** The script's default, no metadata and no tag list, on the three forest
    rows: the one document, character by character. *)
Example forest_default_run :
  let run := main calm forest_rows (Some 3) None false "notes" fresh in
  fst run = Ok tt /\
  attempts (trace (snd run))
  = [("./notes/Chapter 1.md",
      "# Chapter 1" ++ nl ++ "## Scenes" ++ nl
         ++ "### Scene 1" ++ nl ++ nl
         ++ " - POV: Ann" ++ nl
         ++ " - Date and Time: 09:00" ++ nl
         ++ " - Day: Monday" ++ nl
         ++ " - Week: 1" ++ nl
         ++ " - Temperature: 12" ++ nl
         ++ " - Weather: Rain" ++ nl
         ++ " - Uniform: Summer kit" ++ nl ++ nl
         ++ " - Description: They meet." ++ nl ++ nl
         ++ " #### Setting:" ++ nl
         ++ " - Forest" ++ nl
         ++ "     - Clearing" ++ nl
         ++ "     - River" ++ nl ++ nl
         ++ "### Scene 2" ++ nl ++ nl
         ++ " - POV: Ann" ++ nl
         ++ " - Date and Time: 09:00" ++ nl
         ++ " - Day: Monday" ++ nl
         ++ " - Week: 1" ++ nl
         ++ " - Temperature: 12" ++ nl
         ++ " - Weather: Rain" ++ nl
         ++ " - Uniform: Summer kit" ++ nl ++ nl
         ++ " - Description: They meet." ++ nl ++ nl
         ++ " #### Setting:" ++ nl
         ++ " - Forest" ++ nl
         ++ "     - Clearing" ++ nl
         ++ "     - River" ++ nl ++ nl
         ++ "### Scene 3" ++ nl ++ nl
         ++ " - POV: Ann" ++ nl
         ++ " - Date and Time: 09:00" ++ nl
         ++ " - Day: Monday" ++ nl
         ++ " - Week: 2" ++ nl
         ++ " - Temperature: 12" ++ nl
         ++ " - Weather: Rain" ++ nl
         ++ " - Uniform: Summer kit" ++ nl ++ nl
         ++ " - Description: They meet." ++ nl ++ nl
         ++ " #### Setting:" ++ nl
         ++ " - Forest" ++ nl
         ++ "     - Clearing" ++ nl
         ++ "     - River" ++ nl ++ nl)].
Proof. vm_compute. split; reflexivity. Qed.



(** An output directory given as [/tmp/notes]: [os.makedirs] is given
    that path, and the files are asked for under the current directory. *)
Example absolute_output_dir_run :
  let run := main calm hall_rows (Some 2) None false "/tmp/notes" fresh in
  dirs (snd run) = ["/tmp/notes"] /\
  made "/tmp/notes" (trace (snd run)) = true /\
  map fst (attempts (trace (snd run)))
    = [".//tmp/notes/Chapter 1.md"; ".//tmp/notes/Chapter 2.md"].
Proof. vm_compute. repeat split. Qed.

(** ** Checks of the string functions against Python *)

Example split_dash :
  split " - " "Forest - Clearing, River" = ["Forest"; "Clearing, River"].
Proof. reflexivity. Qed.

Example split_comma : split ", " "Clearing, River" = ["Clearing"; "River"].
Proof. reflexivity. Qed.

Example split_trailing : split ". " "a. b. " = ["a"; "b"; ""].
Proof. reflexivity. Qed.

Example split_overlap : split "aa" "aaa" = [""; "a"].
Proof. reflexivity. Qed.

Example split_empty : split ". " "" = [""].
Proof. reflexivity. Qed.

Example dec_values :
  dec 0 = "0" /\ dec 12 = "12" /\ decZ (-5) = "-5" /\ decZ 0 = "0".
Proof. repeat split; reflexivity. Qed.

Example endswith_values :
  endswith "a.csv" ".csv" = true /\ endswith "csv" ".csv" = false.
Proof. split; reflexivity. Qed.

Example nested_setting :
  setting_bullets "Hall. Yard - Bench, Gate - Tree"
  = [Major "Hall"; Major "Yard"; Minor "Bench"; Minor "Gate"; Minor "Tree"].
Proof. reflexivity. Qed.

Example kitchen_garden :
  setting_bullets "Kitchen. Garden" = [Major "Kitchen"; Major "Garden"].
Proof. reflexivity. Qed.

(** * Further properties of the scene-plan converter *)

Section SheetFacts.

Import Sheet.

Lemma row_get_raise (label : string) (r : row) (ex : exn) :
  row_get label r = Raise ex -> ex = KeyError label.
Proof.
  induction r as [|[l c] r IH]; cbn [row_get].
  - intros H. now inversion H.
  - destruct (String.eqb label l); [discriminate | exact IH].
Qed.

(** A row either has the eleven columns and is aggregated, or raises
    [KeyError] for the first one it lacks. *)
Lemma parse_row_cases (r : row) (d : chapters) :
  match missing_column r with
  | None => exists d', parse_row r d = Ok d'
  | Some label => parse_row r d = Raise (KeyError label)
  end.
Proof.
  unfold missing_column, sheet_columns, parse_row, has_column.
  cbn [find].
  repeat match goal with
  | |- context [row_get ?l r] =>
      let E := fresh "E" in
      destruct (row_get l r) as [?|?ex] eqn:E;
      [ cbn [negb bind]
      | apply row_get_raise in E; subst; cbn [negb bind]; reflexivity ]
  end.
  eexists. reflexivity.
Qed.

End SheetFacts.

(** X1.  Aggregation succeeds exactly on sheets whose rows all have the
    eleven columns; otherwise it raises [KeyError] naming the first column,
    in reading order, that the first incomplete row lacks. *)
Theorem aggregation_error (df : list row) (d0 : chapters) :
  match Sheet.first_ragged df with
  | None => exists d, parse_rows df d0 = Ok d
  | Some r =>
      exists label,
        Sheet.missing_column r = Some label /\
        parse_rows df d0 = Raise (KeyError label)
  end.
Proof.
  revert d0. unfold Sheet.first_ragged.
  induction df as [|r df IH]; intros d0; cbn [find parse_rows].
  - now exists d0.
  - pose proof (parse_row_cases r d0) as Hr.
    destruct (Sheet.missing_column r) as [label|] eqn:Em.
    + exists label. rewrite Hr. now split.
    + destruct Hr as [d' ->]. cbn [bind]. apply IH.
Qed.

Example ragged_rows_error :
  parse_rows ragged_rows [] = Raise (KeyError "Weather").
Proof. reflexivity. Qed.

Section ChapterOrder.

Import Sheet.

Lemma filter_and (A : Type) (p q : A -> bool) (l : list A) :
  filter p (filter q l) = filter (fun x => q x && p x) l.
Proof.
  induction l as [|x l IH]; cbn [filter]; [reflexivity|].
  destruct (q x); cbn [filter andb]; [destruct (p x)|]; now rewrite IH.
Qed.

Lemma existsb_snoc (k x : cell) (seen : list cell) :
  existsb (cell_eqb x) (seen ++ [k])%list
  = existsb (cell_eqb x) seen || cell_eqb x k.
Proof. rewrite existsb_app. cbn. now rewrite orb_false_r. Qed.

Lemma dict_get_existsb (k : cell) (d : chapters) :
  existsb (cell_eqb k) (map fst d)
  = match dict_get k d with Some _ => true | None => false end.
Proof.
  induction d as [|[k0 v0] d IH]; cbn; [reflexivity|].
  destruct (cell_eqb k k0); [reflexivity | exact IH].
Qed.

(** The keys of the dict after one more row. *)
Lemma parse_row_keys (r : row) (d d' : chapters) :
  parse_row r d = Ok d' ->
  exists k,
    row_get "Chapter" r = Ok k /\
    map fst d' = if existsb (cell_eqb k) (map fst d)
                 then map fst d
                 else (map fst d ++ [k])%list.
Proof.
  intros H. apply parse_row_ok in H.
  destruct H as (wk & ar & ch & st & un & tm & we & dy & ds & pv & tp
                 & Hget & ->).
  exists ch. split; [apply Hget|].
  rewrite dict_update_keys, dict_get_existsb. unfold ensure_chapter.
  destruct (dict_get ch d); [reflexivity|].
  now rewrite map_app.
Qed.

Lemma parse_rows_keys (df : list row) :
  forall d0 d,
    parse_rows df d0 = Ok d ->
    map fst d =
    (map fst d0
       ++ filter (fun k => negb (existsb (cell_eqb k) (map fst d0)))
                 (first_seen (chapter_keys df)))%list.
Proof.
  induction df as [|r df IH]; intros d0 d H; cbn [parse_rows] in H.
  - inversion H. cbn. now rewrite app_nil_r.
  - destruct (parse_row r d0) as [d1|ex] eqn:E; [|discriminate H].
    cbn [bind] in H. rewrite (IH _ _ H).
    destruct (parse_row_keys _ _ _ E) as (k & Hk & Hkeys).
    cbn [chapter_keys flat_map]. rewrite Hk. cbn [app first_seen filter].
    fold (chapter_keys df). rewrite Hkeys.
    destruct (existsb (cell_eqb k) (map fst d0)) eqn:Ek; cbn [negb].
    + f_equal. rewrite filter_and. apply filter_ext. intros x.
      destruct (cell_eqb x k) eqn:Ex; [|reflexivity].
      apply cell_eqb_eq in Ex. subst x. now rewrite Ek.
    + rewrite <- app_assoc. cbn [app]. do 2 f_equal.
      rewrite filter_and. apply filter_ext. intros x.
      rewrite existsb_snoc, negb_orb. apply andb_comm.
  Qed.

End ChapterOrder.

Lemma dict_keys_first_seen (df : list row) (d : chapters) :
  parse_rows df [] = Ok d ->
  map fst d = Sheet.first_seen (chapter_keys df).
Proof.
  intros H. rewrite (parse_rows_keys df [] d H). cbn [map app existsb negb].
  clear H. induction (Sheet.first_seen (chapter_keys df)) as [|k l IH];
    cbn [filter]; [reflexivity | now rewrite IH].
Qed.

(** X2.  The chapters of the dict [parse_scenes] builds stand in the order
    in which their keys first occur in the rows, each key once; this is the
    order in which the documents are written. *)
Theorem chapters_in_first_seen_order (df : list row) (d : chapters) :
  parse_rows df [] = Ok d ->
  map fst d = Sheet.first_seen (chapter_keys df) /\
  NoDup (map fst d).
Proof.
  intros H. split; [now apply dict_keys_first_seen|].
  apply (parse_rows_aggregated _ _ H).
Qed.

Lemma chapters_in_first_seen_order_witness :
  exists d,
    parse_rows Sheet.interleaved_rows [] = Ok d /\
    map fst d = [Str "2"; Int 1; Str "3"] /\
    map fst d = Sheet.first_seen (chapter_keys Sheet.interleaved_rows) /\
    NoDup (map fst d).
Proof.
  eexists. split; [reflexivity|]. split; [reflexivity|].
  apply (chapters_in_first_seen_order Sheet.interleaved_rows _ eq_refl).
Defined.

(** X3.  The chapter-level values are those of the last row of the
    chapter: [POV], [arc] and [temperature] of an aggregate hold the [POV],
    [Arc] and [Temperature] cells of the last input row with that key,
    whatever the earlier rows of the chapter said. *)
Theorem last_row_wins (df : list row) (d : chapters) (k : cell)
        (c : chapter_data) :
  parse_rows df [] = Ok d ->
  dict_get k d = Some c ->
  exists earlier r,
    rows_of k df = (earlier ++ [r])%list /\
    row_get "POV" r = Ok (POV c) /\
    row_get "Arc" r = Ok (arc c) /\
    exists temp, temperature c = Some temp /\
                 row_get "Temperature" r = Ok temp.
Proof.
  intros Hp Hk.
  destruct (parse_rows_aggregated _ _ Hp) as [_ Hall].
  specialize (Hall k). rewrite Hk in Hall. destruct Hall as [Hne Hag].
  destruct (exists_last Hne) as (earlier & r & Hrs).
  destruct (ag_last _ _ Hag earlier r Hrs) as (Hpov & Harc & Htemp).
  exists earlier, r. split; [exact Hrs|]. split; [exact Hpov|].
  split; [exact Harc|].
  destruct (temperature c) as [temp|]; [|discriminate Htemp].
  exists temp. split; [reflexivity|]. cbn in Htemp. now inversion Htemp.
Qed.

Lemma last_row_wins_witness :
  exists d c,
    parse_rows Sheet.changing_rows [] = Ok d /\
    dict_get (Str "1") d = Some c /\
    POV c = Str "Ben" /\
    exists earlier r,
      rows_of (Str "1") Sheet.changing_rows = (earlier ++ [r])%list /\
      row_get "POV" r = Ok (POV c) /\
      row_get "Arc" r = Ok (arc c) /\
      exists temp, temperature c = Some temp /\
                   row_get "Temperature" r = Ok temp.
Proof.
  do 2 eexists. split; [reflexivity|]. split; [reflexivity|].
  split; [reflexivity|].
  apply (last_row_wins Sheet.changing_rows _ (Str "1") _ eq_refl eq_refl).
Defined.

Section WriteOrder.

(** One call of [write_markdown]: either [open] is called once and the
    call returns, or the directory is absent, [os.makedirs] raises, and
    nothing was asked of the disk. *)
Lemma write_markdown_outcome (e : env) (fp out content : string) (w : world) :
  let r := write_markdown e fp out content w in
  (fst r = Ok tt /\
   attempts (trace (snd r))
   = (attempts (trace w) ++ [(md_path out fp, content)])%list /\
   present out (snd r) = true) \/
  (exists ex,
      fst r = Raise ex /\ present out w = false /\
      makedirs_err e out = Some ex /\
      attempts (trace (snd r)) = attempts (trace w) /\
      dirs (snd r) = dirs w).
Proof.
  unfold write_markdown, present. cbn [emit dirs].
  destruct (existsb (String.eqb out) (dirs w)) eqn:Ex.
  - left. destruct (write_err e _ content); cbn [fst snd emit trace dirs];
      rewrite !attempts_app; cbn [attempts flat_map app];
      rewrite ?app_nil_r; auto.
  - destruct (makedirs_err e out) as [ex|].
    + right. exists ex. cbn [fst snd emit trace dirs].
      rewrite attempts_app. cbn. rewrite app_nil_r. auto.
    + left. destruct (write_err e _ content);
        cbn [fst snd emit mkdir trace dirs existsb];
        rewrite !attempts_app, String.eqb_refl; cbn [attempts flat_map app orb];
        rewrite ?app_nil_r; auto.
Qed.

(** Whatever the disk does, the chapter loop calls [open] for an initial
    stretch of the chapters, once each and in dict order; it reaches the
    end of the dict only after a call for every chapter. *)
Lemma chapters_loop_attempts (e : env) (tags : option (list string))
      (out : string) (am : bool) (items : chapters) :
  forall sn w,
  exists docs rest,
    attempts (trace (snd (chapters_loop e tags out am items sn w)))
    = (attempts (trace w) ++ docs)%list /\
    map (chapter_path out) (map fst items) = (map fst docs ++ rest)%list /\
    (fst (chapters_loop e tags out am items sn w) = Done -> rest = []).
Proof.
  induction items as [|[k c] items IH]; intros sn w.
  - exists [], []. cbn. rewrite app_nil_r. auto.
  - cbn [chapters_loop].
    pose proof (chapter_document_world e tags am k c sn w) as [Ht _].
    destruct (chapter_document e tags am k c sn w) as [[r sn'] w1].
    cbn [snd] in Ht.
    assert (Hstop : forall end_,
               end_ <> Done ->
               exists docs rest,
                 attempts (trace (snd (end_, w1)))
                 = (attempts (trace w) ++ docs)%list /\
                 map (chapter_path out) (map fst ((k, c) :: items))
                 = (map fst docs ++ rest)%list /\
                 (fst (end_, w1) = Done -> rest = [])).
    { intros end_ Hend. exists [], (map (chapter_path out) (map fst ((k, c) :: items))).
      cbn [snd fst map app]. rewrite Ht, app_nil_r.
      split; [reflexivity|]. split; [reflexivity|]. intros H. now elim Hend. }
    destruct r as [doc|ex]; [|apply Hstop; discriminate].
    destruct sn' as [n|]; [|apply Hstop; discriminate]. clear Hstop.
    set (line := LogInfo _).
    pose proof (write_markdown_outcome e ("Chapter " ++ fmt k) out doc
                                       (emit line w1)) as Hw.
    cbv zeta in Hw.
    destruct (write_markdown e ("Chapter " ++ fmt k) out doc (emit line w1))
      as [r2 w3]. cbn [fst snd] in Hw.
    assert (Hline : attempts (trace (emit line w1)) = attempts (trace w)).
    { unfold line. rewrite attempts_emit_log by exact I. now rewrite Ht. }
    destruct Hw as [(-> & Hatt & _) | (ex & -> & _ & _ & Hatt & _)].
    + destruct (IH (Some n) w3) as (docs & rest & Hd & Hp & Hdone).
      exists ((md_path out ("Chapter " ++ fmt k), doc) :: docs), rest.
      split; [|split].
      * rewrite Hd, Hatt, Hline, <- app_assoc. reflexivity.
      * cbn [map fst app]. now rewrite Hp.
      * exact Hdone.
    + exists [], (map (chapter_path out) (map fst ((k, c) :: items))).
      cbn [snd fst map app]. rewrite Hatt, Hline, app_nil_r.
      split; [reflexivity|]. split; [reflexivity|]. discriminate.
Qed.

Lemma write_markdown_sealed (e : env) (fp out content : string) (w : world)
      (ex : exn) :
  present out w = false -> makedirs_err e out = Some ex ->
  write_markdown e fp out content w
  = (Raise ex, emit (LogInfo ("Writing .md file at " ++ shown_path out fp)) w).
Proof.
  unfold write_markdown, present. cbn [emit dirs]. intros -> ->. reflexivity.
Qed.

(** With the directory absent and not creatable the loop never reaches
    [open], makes no directory, and ends at its first chapter. *)
Lemma chapters_loop_sealed (e : env) (tags : option (list string))
      (out : string) (am : bool) (k : cell) (c : chapter_data)
      (items : chapters) (sn : option nat) (w : world) (ex : exn) :
  present out w = false -> makedirs_err e out = Some ex ->
  exists ex' sn' w',
    chapters_loop e tags out am ((k, c) :: items) sn w
    = (Failed ex' k sn', w') /\
    attempts (trace w') = attempts (trace w) /\
    dirs w' = dirs w.
Proof.
  intros Hp Hmk. cbn [chapters_loop].
  pose proof (chapter_document_world e tags am k c sn w) as [Ht Hd].
  destruct (chapter_document e tags am k c sn w) as [[r sn'] w1].
  cbn [snd] in Ht, Hd.
  destruct r as [doc|ex'].
  - destruct sn' as [n|].
    + set (line := LogInfo _).
      rewrite (write_markdown_sealed e _ out doc (emit line w1) ex).
      * do 3 eexists. split; [reflexivity|].
        cbn [emit trace dirs]. rewrite !attempts_app, Ht, Hd.
        cbn. now rewrite !app_nil_r.
      * unfold present in *. cbn [emit dirs]. now rewrite Hd.
      * exact Hmk.
    + do 3 eexists. split; [reflexivity|]. now rewrite Ht, Hd.
  - do 3 eexists. split; [reflexivity|]. now rewrite Ht, Hd.
Qed.

End WriteOrder.

Lemma generate_attempts (e : env) (d : chapters)
      (tags : option (list string)) (out : string) (am : bool) (w : world) :
  exists docs rest,
    attempts (trace (snd (generate_markdown_content e (Some d) tags out am w)))
    = (attempts (trace w) ++ docs)%list /\
    map (chapter_path out) (map fst d) = (map fst docs ++ rest)%list.
Proof.
  unfold generate_markdown_content. set (line := LogInfo _).
  destruct (chapters_loop_attempts e tags out am d None (emit line w))
    as (docs & rest & Hatt & Hpaths & _).
  exists docs, rest. split; [|exact Hpaths].
  unfold line in Hatt. rewrite attempts_emit_log in Hatt by exact I.
  destruct (chapters_loop e tags out am d None (emit _ w)) as [[|ex k [n|]] w1];
    cbn [snd] in *; try exact Hatt.
  now rewrite !attempts_emit_log by exact I.
Qed.

(** X4.  Whatever fails, [generate_markdown_content] calls [open] for an
    initial stretch of the chapters only: once per chapter, in dict order,
    each time on the file named after the chapter it has reached; so it
    never calls [open] more often than the dict has chapters. *)
Theorem documents_follow_chapters (e : env) (d : chapters)
        (tags : option (list string)) (out : string) (am : bool) (w : world) :
  exists docs rest,
    attempts (trace (snd (generate_markdown_content e (Some d) tags out am w)))
    = (attempts (trace w) ++ docs)%list /\
    map (chapter_path out) (map fst d) = (map fst docs ++ rest)%list /\
    List.length docs <= List.length d.
Proof.
  destruct (generate_attempts e d tags out am w) as (docs & rest & Hatt & Hp).
  exists docs, rest. split; [exact Hatt|]. split; [exact Hp|].
  apply (f_equal (@List.length _)) in Hp.
  rewrite length_app, !length_map in Hp. lia.
Qed.

(** X5.  When the output directory is absent and [os.makedirs] fails, the
    exception leaves [write_markdown]: on a dict with at least one chapter
    [generate_markdown_content] never calls [open] and makes no directory;
    it stops at the first chapter, either raising [UnboundLocalError] or
    returning after the fault was logged and printed under the name of
    that chapter. *)
Theorem no_directory_no_document (e : env) (k : cell) (c : chapter_data)
        (d : chapters) (tags : option (list string)) (out : string)
        (am : bool) (w : world) (ex : exn) :
  present out w = false ->
  makedirs_err e out = Some ex ->
  let run := generate_markdown_content e (Some ((k, c) :: d)) tags out am w in
  attempts (trace (snd run)) = attempts (trace w) /\
  dirs (snd run) = dirs w /\
  (fst run = Raise unbound_scene_number \/
   exists n ex' tr,
     fst run = Ok tt /\
     let msg := "Error: An error occured while parsing Chapter "
                  ++ fmt k ++ ", Scene " ++ dec n ++ ": " ++ exn_str ex' in
     trace (snd run) = (tr ++ [LogError msg; Print msg])%list).
Proof.
  intros Hp Hmk run. unfold run, generate_markdown_content.
  set (line := LogInfo _).
  destruct (chapters_loop_sealed e tags out am k c d None (emit line w) ex)
    as (ex' & sn' & w' & -> & Hatt & Hdirs); [exact Hp | exact Hmk |].
  unfold line in Hatt. rewrite attempts_emit_log in Hatt by exact I.
  cbn [emit dirs] in Hdirs.
  destruct sn' as [n|]; cbn [fst snd].
  - rewrite !attempts_emit_log by exact I. split; [exact Hatt|].
    split; [exact Hdirs|]. right. exists n, ex', (trace w').
    split; [reflexivity|]. cbn [emit trace]. now rewrite <- app_assoc.
  - split; [exact Hatt|]. split; [exact Hdirs|]. now left.
Qed.

Lemma no_directory_no_document_witness :
  let run := generate_markdown_content Sheet.sealed
               (Some [(Str "2", yard_chapter)]) None "notes" false fresh in
  attempts (trace (snd run)) = attempts (trace fresh) /\
  dirs (snd run) = dirs fresh /\
  (fst run = Raise unbound_scene_number \/
   exists n ex' tr,
     fst run = Ok tt /\
     let msg := "Error: An error occured while parsing Chapter "
                  ++ fmt (Str "2") ++ ", Scene " ++ dec n ++ ": "
                  ++ exn_str ex' in
     trace (snd run) = (tr ++ [LogError msg; Print msg])%list).
Proof.
  apply (no_directory_no_document Sheet.sealed (Str "2") yard_chapter []
           None "notes" false fresh (OSError "[Errno 13] Permission denied"));
    reflexivity.
Defined.

Example sealed_run_message :
  trace (snd (generate_markdown_content Sheet.sealed
                (Some [(Str "2", yard_chapter)]) None "notes" false fresh))
  = [LogInfo "Generating .md markdown files for 1 chapters.";
     LogInfo "Chapter 2, Scene 1 created.";
     LogInfo "Writing .md file at '/notes/Chapter 2.md'";
     LogError "Error: An error occured while parsing Chapter 2, Scene 1: [Errno 13] Permission denied";
     Print "Error: An error occured while parsing Chapter 2, Scene 1: [Errno 13] Permission denied"].
Proof. reflexivity. Qed.

(** X6.  Metadata asked for without a tag list: on any sheet that
    aggregates and has at least one row, joining the missing tags raises
    in the first chapter, before [scene_number] was ever assigned, so the
    handler of [generate_markdown_content] raises in turn.  [main] ends
    with [UnboundLocalError]; three information lines were logged, no
    error was logged or printed, and the disk was not touched. *)
Theorem metadata_without_tags (e : env) (df : list row) (d : chapters)
        (n : option nat) (out : string) (w : world) :
  parse_rows df [] = Ok d ->
  df <> [] ->
  main e df n None true out w
  = (Raise unbound_scene_number,
     emit (LogInfo ("Generating .md markdown files for "
                      ++ dec (List.length d) ++ " chapters."))
       (emit (LogInfo ("Successfully parsed " ++ fmt_count n
                         ++ " scenes into " ++ dec (List.length d)
                         ++ " chapters."))
          (emit (LogInfo ("Parsing " ++ fmt_count n ++ " scenes.")) w))).
Proof.
  intros Hp Hne. unfold main, parse_scenes. rewrite Hp.
  cbv beta iota zeta. unfold generate_markdown_content.
  assert (Hd : d <> []).
  { pose proof (dict_keys_first_seen df d Hp) as Hk.
    destruct df as [|r df]; [now elim Hne|].
    cbn [parse_rows] in Hp.
    destruct (parse_row r []) as [d1|ex] eqn:E; [|discriminate Hp].
    destruct (parse_row_keys _ _ _ E) as (k & Hrk & _).
    cbn [chapter_keys flat_map] in Hk. rewrite Hrk in Hk.
    cbn [app Sheet.first_seen] in Hk. intros ->. discriminate Hk. }
  destruct d as [|[k c] d]; [now elim Hd|].
  cbn [chapters_loop]. unfold chapter_document. reflexivity.
Qed.

Lemma metadata_without_tags_witness :
  main calm hall_rows (Some 2) None true "notes" fresh
  = (Raise unbound_scene_number,
     emit (LogInfo "Generating .md markdown files for 2 chapters.")
       (emit (LogInfo "Successfully parsed 2 scenes into 2 chapters.")
          (emit (LogInfo "Parsing 2 scenes.") fresh))).
Proof.
  apply (metadata_without_tags calm hall_rows
           [(Str "1", Sheet.hall_chapter); (Str "2", yard_chapter)]
           (Some 2) "notes" fresh).
  - reflexivity.
  - discriminate.
Defined.

(** * Further properties of the word-frequency aggregator *)

Section RankingFacts.

Import Words Ranking.

Lemma insert_ranked_perm (x : string * Z) (l : list (string * Z)) :
  Permutation (x :: l) (insert_ranked x l).
Proof.
  induction l as [|y l IH]; cbn [insert_ranked]; [reflexivity|].
  destruct (snd x <? snd y)%Z; [|reflexivity].
  rewrite perm_swap. now apply perm_skip.
Qed.

Lemma rank_words_perm (wc : word_counts) : Permutation wc (rank_words wc).
Proof.
  induction wc as [|x wc IH]; cbn [rank_words fold_right]; [constructor|].
  rewrite <- insert_ranked_perm. now apply perm_skip.
Qed.

Lemma insert_ranked_sorted (x : string * Z) (l : list (string * Z)) :
  ranked l -> ranked (insert_ranked x l).
Proof.
  unfold ranked. induction 1 as [|y l Hl IH Hy]; cbn [insert_ranked].
  - constructor; constructor.
  - destruct (snd x <? snd y)%Z eqn:E.
    + apply Z.ltb_lt in E. constructor; [exact IH|].
      apply (Permutation_Forall (insert_ranked_perm x l)).
      constructor; [lia | exact Hy].
    + apply Z.ltb_ge in E. constructor; [now constructor|].
      constructor; [exact E|].
      eapply Forall_impl; [|exact Hy]. cbn. intros a Ha. lia.
Qed.

Lemma rank_words_sorted (wc : word_counts) : ranked (rank_words wc).
Proof.
  induction wc as [|x wc IH]; cbn [rank_words fold_right].
  - constructor.
  - now apply insert_ranked_sorted.
Qed.

Lemma insert_ranked_with_count (c : Z) (x : string * Z) (l : list (string * Z)) :
  with_count c (insert_ranked x l) = with_count c (x :: l).
Proof.
  unfold with_count. induction l as [|y l IH]; cbn [insert_ranked];
    [reflexivity|].
  destruct (snd x <? snd y)%Z eqn:E; [|reflexivity].
  apply Z.ltb_lt in E. cbn [filter] in *. rewrite IH.
  destruct (snd x =? c)%Z eqn:Ex, (snd y =? c)%Z eqn:Ey; try reflexivity.
  apply Z.eqb_eq in Ex, Ey. lia.
Qed.

Lemma add_count_keys (word w : string) (n : Z) (wc : word_counts) :
  In w (map fst (add_count word n wc)) <-> w = word \/ In w (map fst wc).
Proof.
  induction wc as [|[w0 m0] wc IH]; cbn [add_count map fst In].
  - intuition.
  - destruct (String.eqb word w0) eqn:E; cbn [map fst In].
    + apply String.eqb_eq in E. subst. intuition.
    + rewrite IH. intuition.
Qed.

Lemma add_count_nodup (word : string) (n : Z) (wc : word_counts) :
  NoDup (map fst wc) -> NoDup (map fst (add_count word n wc)).
Proof.
  induction wc as [|[w0 m0] wc IH]; cbn [add_count map fst]; intros H.
  - constructor; [intros [] | constructor].
  - inversion H as [|? ? Hnot Hnd]; subst.
    destruct (String.eqb word w0) eqn:E; cbn [map fst].
    + now constructor.
    + apply String.eqb_neq in E. constructor; [|now apply IH].
      rewrite add_count_keys. intros [Heq|Hin]; [now subst | contradiction].
Qed.

Lemma apply_entries_nodup (es : list (string * Z)) :
  forall wc, NoDup (map fst wc) -> NoDup (map fst (apply_entries es wc)).
Proof.
  unfold apply_entries. induction es as [|[w n] es IH]; intros wc H;
    cbn [fold_left]; [exact H|].
  apply IH. now apply add_count_nodup.
Qed.

Lemma lookup_in (w : string) (n : Z) (wc : word_counts) :
  NoDup (map fst wc) -> (In (w, n) wc <-> lookup w wc = Some n).
Proof.
  induction wc as [|[w0 m0] wc IH]; cbn [lookup In map fst]; intros H.
  - split; [intros [] | discriminate].
  - inversion H as [|? ? Hnot Hnd]; subst.
    destruct (String.eqb w w0) eqn:E.
    + apply String.eqb_eq in E. subst w0. split.
      * intros [Heq|Hin]; [now inversion Heq|].
        elim Hnot. change w with (fst (w, n)). now apply in_map.
      * intros Heq. inversion Heq. now left.
    + apply String.eqb_neq in E. rewrite <- (IH Hnd). split.
      * intros [Heq|Hin]; [inversion Heq; congruence | exact Hin].
      * intros Hin. now right.
Qed.

End RankingFacts.

(** X7.  [rank_words] returns the items of the dict, each exactly once,
    in order of non-increasing count: no word is lost, added or listed
    before a word with a larger count. *)
Theorem rank_words_sorted_permutation (wc : Words.word_counts) :
  Permutation wc (Ranking.rank_words wc) /\
  Ranking.ranked (Ranking.rank_words wc).
Proof.
  split; [apply rank_words_perm | apply rank_words_sorted].
Qed.

(** X8.  The ranking is stable: the words that share a count come in the
    order in which the dict holds them, that is the order in which they
    were first read. *)
Theorem rank_words_stable (wc : Words.word_counts) (c : Z) :
  Ranking.with_count c (Ranking.rank_words wc) = Ranking.with_count c wc.
Proof.
  induction wc as [|x wc IH]; cbn [Ranking.rank_words fold_right];
    [reflexivity|].
  rewrite insert_ranked_with_count. unfold Ranking.with_count in *.
  cbn [filter]. fold (Ranking.rank_words wc). now rewrite IH.
Qed.

(** X9.  Reading and ranking compose: the ranked list holds the pair of a
    word and a number exactly when that number is the sum of the counts of
    the valid rows of that word, and it holds no word twice. *)
Theorem ranked_totals (py_int : string -> option Z)
        (folder : list Words.csv_file) (word : string) (n : Z) :
  let ranked_words :=
    Ranking.rank_words (fst (Words.read_csv_files py_int folder)) in
  (In (word, n) ranked_words <->
   Words.total word (Words.entries py_int (Words.csv_rows folder)) = Some n) /\
  NoDup (map fst ranked_words).
Proof.
  intros ranked_words. unfold ranked_words, Words.read_csv_files.
  rewrite read_files_spec. cbn [fst].
  set (es := Words.entries py_int (Words.csv_rows folder)).
  assert (Hnd : NoDup (map fst (Words.apply_entries es []))).
  { apply apply_entries_nodup. constructor. }
  split.
  - pose proof (lookup_apply_entries word es []) as Hl.
    cbn [Words.lookup] in Hl. rewrite <- Hl, <- (lookup_in word n _ Hnd).
    split.
    + apply Permutation_in. symmetry. apply rank_words_perm.
    + apply Permutation_in. apply rank_words_perm.
  - eapply Permutation_NoDup; [|exact Hnd].
    apply Permutation_map. apply rank_words_perm.
Qed.

(** X10.  The first word of the ranking has the largest total: no item of
    the dict has a count above that of the head of the ranked list. *)
Theorem rank_words_head_is_max (wc : Words.word_counts) (word w : string)
        (top n : Z) (rest : list (string * Z)) :
  Ranking.rank_words wc = (word, top) :: rest ->
  In (w, n) wc ->
  (n <= top)%Z.
Proof.
  intros Hr Hin.
  pose proof (rank_words_sorted wc) as Hs. rewrite Hr in Hs.
  apply (Permutation_in _ (rank_words_perm wc)) in Hin. rewrite Hr in Hin.
  inversion Hs as [|? ? _ Hall]; subst.
  destruct Hin as [Heq|Hin].
  - inversion Heq. lia.
  - rewrite Forall_forall in Hall. apply (Hall (w, n) Hin).
Qed.

Lemma rank_words_head_is_max_witness : (2 <= 7)%Z.
Proof.
  apply (rank_words_head_is_max [("cat", 2%Z); ("the", 7%Z); ("a", 2%Z)]
           "the" "cat" 7 2 [("cat", 2%Z); ("a", 2%Z)]).
  - reflexivity.
  - now left.
Defined.

Example sample_ranking :
  Ranking.rank_words [("cat", 2%Z); ("the", 7%Z); ("a", 2%Z); ("of", 7%Z)]
  = [("the", 7%Z); ("of", 7%Z); ("cat", 2%Z); ("a", 2%Z)].
Proof. reflexivity. Qed.

Section DisplayFacts.

Import Words Ranking.

Lemma chars_append (a b : string) : chars (a ++ b) = chars a + chars b.
Proof.
  induction a as [|c a IH]; cbn [append chars]; [reflexivity|].
  rewrite IH. lia.
Qed.

Lemma chars_spaces (n : nat) : chars (spaces n) = n.
Proof.
  induction n as [|n IH]; cbn [spaces chars]; [reflexivity|].
  now rewrite IH.
Qed.

Lemma chars_ljust (width : nat) (s : string) :
  chars (ljust width s) = Nat.max width (chars s).
Proof.
  unfold ljust. rewrite chars_append, chars_spaces. lia.
Qed.

Lemma ranking_lines_length (rows : list (string * Z)) :
  forall rank, List.length (ranking_lines rank rows) = List.length rows.
Proof.
  induction rows as [|[word count] rows IH]; intros rank;
    cbn [ranking_lines List.length]; [reflexivity|].
  now rewrite IH.
Qed.

Lemma ranking_lines_nth (rows : list (string * Z)) :
  forall rank i word count,
    nth_error rows i = Some (word, count) ->
    nth_error (ranking_lines rank rows) i
    = Some (ranking_line (rank + i) word count).
Proof.
  induction rows as [|[w0 c0] rows IH]; intros rank i word count H.
  - destruct i; discriminate H.
  - destruct i as [|i]; cbn [nth_error ranking_lines] in *.
    + inversion H. now rewrite Nat.add_0_r.
    + rewrite (IH (S rank) i word count H). f_equal. f_equal. lia.
Qed.

Lemma combine_fst_snd (A B : Type) (l : list (A * B)) :
  combine (map fst l) (map snd l) = l.
Proof.
  induction l as [|[a b] l IH]; cbn; [reflexivity | now rewrite IH].
Qed.

End DisplayFacts.

(** X11.  For a non-negative [top_n], [display_ranking] prints the header
    [Rank], [Word], [Count] in columns of 5, 15 and 10 characters, then
    the rule of 30 dashes, and then one line for each of the first [top_n]
    items of the ranking (all of them when there are fewer, none for an
    empty ranking or [top_n = 0]) and nothing else: the item at position
    [i] is printed on line [i + 2], under the rank [i + 1], in the same
    three columns. *)
Theorem display_ranking_rows (ranked_words : list (string * Z)) (top_n : Z) :
  (0 <= top_n)%Z ->
  nth_error (Ranking.display_ranking ranked_words top_n) 0
  = Some "Rank Word           Count     " /\
  nth_error (Ranking.display_ranking ranked_words top_n) 1
  = Some "------------------------------" /\
  List.length (Ranking.display_ranking ranked_words top_n)
  = 2 + Nat.min (Z.to_nat top_n) (List.length ranked_words) /\
  forall (i : nat) (word : string) (count : Z),
    nth_error ranked_words i = Some (word, count) ->
    (Z.of_nat i < top_n)%Z ->
    nth_error (Ranking.display_ranking ranked_words top_n) (2 + i)
    = Some (Ranking.ljust 5 (dec (i + 1)) ++ Ranking.ljust 15 word
              ++ Ranking.ljust 10 (decZ count)).
Proof.
  intros Hn. unfold Ranking.display_ranking, Ranking.slice_to.
  destruct (top_n <? 0)%Z eqn:E; [apply Z.ltb_lt in E; lia|].
  split; [reflexivity|]. split; [reflexivity|]. split.
  - cbn [List.length Nat.add].
    now rewrite ranking_lines_length, length_firstn.
  - intros i word count Hi Hlt. cbn [nth_error Nat.add].
    rewrite (ranking_lines_nth _ 1 i word count).
    + unfold Ranking.ranking_line. f_equal. f_equal. f_equal. f_equal. lia.
    + rewrite nth_error_firstn.
      destruct (Nat.ltb_spec i (Z.to_nat top_n)); [exact Hi | lia].
Qed.

Lemma display_ranking_rows_witness :
  let shown := Ranking.display_ranking
                 [("the", 7%Z); ("cat", 2%Z); ("a", 1%Z)] 2 in
  nth_error shown 0 = Some "Rank Word           Count     " /\
  nth_error shown 1 = Some "------------------------------" /\
  List.length shown = 2 + Nat.min (Z.to_nat 2) 3 /\
  forall (i : nat) (word : string) (count : Z),
    nth_error [("the", 7%Z); ("cat", 2%Z); ("a", 1%Z)] i
    = Some (word, count) ->
    (Z.of_nat i < 2)%Z ->
    nth_error shown (2 + i)
    = Some (Ranking.ljust 5 (dec (i + 1)) ++ Ranking.ljust 15 word
              ++ Ranking.ljust 10 (decZ count)).
Proof.
  apply (display_ranking_rows [("the", 7%Z); ("cat", 2%Z); ("a", 1%Z)] 2).
  lia.
Defined.

(** Nothing below the rule for an empty ranking or for [top_n = 0]. *)
Example empty_table :
  Ranking.display_ranking [] 20
  = ["Rank Word           Count     "; "------------------------------"] /\
  Ranking.display_ranking [("the", 7%Z)] 0
  = ["Rank Word           Count     "; "------------------------------"].
Proof. split; reflexivity. Qed.

(** X12.  A line of the table is as wide as its three columns: 5, 15 and
    10 characters, or the length of the rank, of the word and of the count
    where that is more.  Nothing is cut: a word of more than 15 characters
    pushes its count to the right of the column. *)
Theorem ranking_line_width (rank : nat) (word : string) (count : Z) :
  Ranking.chars (Ranking.ranking_line rank word count)
  = Nat.max 5 (Ranking.chars (dec rank))
    + Nat.max 15 (Ranking.chars word)
    + Nat.max 10 (Ranking.chars (decZ count)).
Proof.
  unfold Ranking.ranking_line.
  rewrite !chars_append, !chars_ljust. lia.
Qed.

Example table_sample :
  Ranking.display_ranking [("the", 7%Z); ("extraordinarily", 2%Z)] 20
  = ["Rank Word           Count     ";
     "------------------------------";
     "1    the            7         ";
     "2    extraordinarily2         "].
Proof. reflexivity. Qed.

(** X13.  Table and chart agree: what [main] prints is the skip messages
    of the reading followed by the table, and the bar chart it draws has
    one bar for every line of the table below the rule, for the same
    word and at the height of the count printed, in the same order. *)
Theorem table_and_chart_agree (py_int : string -> option Z)
        (folder : list Words.csv_file) (top_n : Z) :
  let run := Ranking.main py_int folder top_n in
  exists words counts,
    In (Ranking.Bar words counts "skyblue") (snd run) /\
    List.length words = List.length counts /\
    fst run
    = (Words.skipped py_int (Words.csv_rows folder)
         ++ "Rank Word           Count     "
         :: "------------------------------"
         :: Ranking.ranking_lines 1 (combine words counts))%list.
Proof.
  intros run. unfold run, Ranking.main, Ranking.plot_word_counts,
                Ranking.display_ranking.
  set (top := Ranking.slice_to top_n _).
  exists (map fst top), (map snd top).
  split; [right; left; reflexivity|]. split; [now rewrite !length_map|].
  rewrite combine_fst_snd. cbn [fst].
  unfold Words.read_csv_files. rewrite read_files_spec. reflexivity.
Qed.

(** * Properties of the tag argument *)

Section TagFacts.

Import Tags.

Lemma prefix_comma (c : ascii) (s : string) :
  prefix "," (String c s) = Ascii.eqb c ",".
Proof.
  cbn [prefix]. destruct (ascii_dec "," c) as [<-|Hne].
  - now destruct s.
  - symmetry. apply Ascii.eqb_neq. congruence.
Qed.

Lemma contains_comma_cons (c : ascii) (s : string) :
  contains "," (String c s) = Ascii.eqb c "," || contains "," s.
Proof. cbn [contains]. now rewrite prefix_comma. Qed.

Lemma split_from_comma_cons (c : ascii) (s : string) :
  split_from "," 0 (String c s) =
  if Ascii.eqb c ","
  then (EmptyString, fst (split_from "," 0 s) :: snd (split_from "," 0 s))
  else (String c (fst (split_from "," 0 s)), snd (split_from "," 0 s)).
Proof.
  cbn [split_from]. rewrite prefix_comma. cbn [String.length Nat.sub].
  destruct (Ascii.eqb c ","), (split_from "," 0 s); reflexivity.
Qed.

Lemma split_comma_cons (c : ascii) (s : string) :
  split "," (String c s) =
  if Ascii.eqb c ","
  then EmptyString :: split "," s
  else match split "," s with
       | p :: ps => String c p :: ps
       | [] => []
       end.
Proof.
  unfold split. rewrite split_from_comma_cons.
  destruct (Ascii.eqb c ","), (split_from "," 0 s); reflexivity.
Qed.

(** Before its first comma a text is cut as a whole. *)
Lemma split_comma_app (t rest : string) :
  contains "," t = false ->
  split "," (t ++ String "," rest) = t :: split "," rest.
Proof.
  induction t as [|c t IH]; intros H.
  - cbn [append]. now rewrite split_comma_cons.
  - rewrite contains_comma_cons in H. apply orb_false_iff in H.
    destruct H as [Hc Ht]. cbn [append]. rewrite split_comma_cons, Hc.
    now rewrite (IH Ht).
Qed.

Lemma lstrip_length (s : string) :
  String.length (lstrip s) <= String.length s.
Proof.
  induction s as [|c s IH]; cbn [lstrip String.length]; [lia|].
  destruct (is_space c); cbn [String.length]; lia.
Qed.

Lemma lstrip_fixed (c : ascii) (s : string) :
  lstrip (String c s) = String c s -> is_space c = false.
Proof.
  cbn [lstrip]. destruct (is_space c); [|reflexivity].
  intros H. apply (f_equal String.length) in H. cbn [String.length] in H.
  pose proof (lstrip_length s). lia.
Qed.

Lemma lstrip_idem (s : string) : lstrip (lstrip s) = lstrip s.
Proof.
  induction s as [|c s IH]; cbn [lstrip]; [reflexivity|].
  destruct (is_space c) eqn:E; [exact IH|]. cbn [lstrip]. now rewrite E.
Qed.

Lemma rstrip_idem (s : string) : rstrip (rstrip s) = rstrip s.
Proof.
  induction s as [|c s IH]; cbn [rstrip]; [reflexivity|].
  destruct (rstrip s) as [|c' r] eqn:E.
  - destruct (is_space c) eqn:Ec; cbn [rstrip]; [reflexivity|].
    now rewrite Ec.
  - cbn [rstrip] in *. rewrite IH. reflexivity.
Qed.

Lemma rstrip_head (c : ascii) (s : string) :
  is_space c = false -> exists r, rstrip (String c s) = String c r.
Proof.
  intros H. cbn [rstrip]. destruct (rstrip s); rewrite ?H; eexists; reflexivity.
Qed.

(** What [strip] returns has no white space left at either end. *)
Lemma strip_stripped (s : string) :
  lstrip (strip s) = strip s /\ rstrip (strip s) = strip s.
Proof.
  unfold strip. split; [|apply rstrip_idem].
  pose proof (lstrip_idem s) as H.
  destruct (lstrip s) as [|c x]; [reflexivity|].
  destruct (rstrip_head c x (lstrip_fixed c x H)) as [r ->].
  cbn [lstrip]. now rewrite (lstrip_fixed c x H).
Qed.

Lemma contains_comma_lstrip (s : string) :
  contains "," s = false -> contains "," (lstrip s) = false.
Proof.
  induction s as [|c s IH]; cbn [lstrip]; [auto|].
  intros H. destruct (is_space c); [|exact H].
  rewrite contains_comma_cons in H. apply orb_false_iff in H. now apply IH.
Qed.

Lemma contains_comma_rstrip (s : string) :
  contains "," s = false -> contains "," (rstrip s) = false.
Proof.
  induction s as [|c s IH]; cbn [rstrip]; [auto|].
  intros H. rewrite contains_comma_cons in H. apply orb_false_iff in H.
  destruct H as [Hc Hs]. specialize (IH Hs).
  destruct (rstrip s) as [|c' r].
  - destruct (is_space c); [reflexivity|].
    rewrite contains_comma_cons, Hc. reflexivity.
  - rewrite contains_comma_cons, Hc. exact IH.
Qed.

Lemma split_comma_pieces (s : string) :
  split "," s <> [] /\
  Forall (fun p => contains "," p = false) (split "," s) /\
  List.length (split "," s) = S (commas s).
Proof.
  induction s as [|c s (Hne & Hall & Hlen)].
  - cbn. split; [discriminate|]. split; [|reflexivity].
    constructor; [reflexivity | constructor].
  - rewrite split_comma_cons. cbn [commas].
    destruct (Ascii.eqb c ",") eqn:Ec.
    + split; [discriminate|]. split.
      * constructor; [reflexivity | exact Hall].
      * cbn [List.length]. now rewrite Hlen.
    + destruct (split "," s) as [|p ps]; [now elim Hne|].
      split; [discriminate|]. split.
      * inversion Hall; subst. constructor; [|assumption].
        now rewrite contains_comma_cons, Ec.
      * exact Hlen.
Qed.

Lemma plain_spec (t : string) :
  plain t = true ->
  contains "," t = false /\ lstrip t = t /\ rstrip t = t.
Proof.
  unfold plain. intros H.
  apply andb_true_iff in H. destruct H as [H Hr].
  apply andb_true_iff in H. destruct H as [H Hl].
  apply andb_true_iff in H. destruct H as [_ Hc].
  apply negb_true_iff in Hc.
  apply String.eqb_eq in Hl, Hr. auto.
Qed.

(** The tags come back whether or not a space leads the text. *)
Lemma parse_join (tl : list string) :
  tl <> [] -> forallb plain tl = true ->
  forall lead : bool,
    map strip (split "," ((if lead then " " else "") ++ join ", " tl)) = tl.
Proof.
  induction tl as [|t tl IH]; intros Hne Hall lead; [now elim Hne|].
  cbn [forallb] in Hall. apply andb_true_iff in Hall.
  destruct Hall as [Ht Htl].
  destruct (plain_spec t Ht) as (Hc & Hl & Hr).
  assert (Hlead : contains "," ((if lead then " " else "") ++ t) = false).
  { destruct lead; cbn [append]; [|exact Hc].
    now rewrite contains_comma_cons, Hc. }
  assert (Hstrip : strip ((if lead then " " else "") ++ t) = t).
  { unfold strip. destruct lead; cbn [append lstrip]; [|now rewrite Hl, Hr].
    change (is_space " ") with true. cbn iota. now rewrite Hl, Hr. }
  destruct tl as [|t' tl].
  - cbn [join String.concat]. rewrite (split_absent _ _ Hlead).
    cbn [map]. now rewrite Hstrip.
  - change (join ", " (t :: t' :: tl))
      with (t ++ String "," (String " " (join ", " (t' :: tl)))).
    rewrite <- append_assoc, (split_comma_app _ _ Hlead).
    cbn [map]. rewrite Hstrip. f_equal.
    apply (IH ltac:(discriminate) Htl true).
Qed.

End TagFacts.

(** X14.  Tags written the way the help text asks for, separated by a
    comma and a space, come back as they were: for a non-empty list of
    ASCII tags without comma and without white space at either end,
    [parse_items] of their [", "]-join is the list itself, so the [tags:]
    line of the metadata block repeats the command-line argument. *)
Theorem parse_items_of_join (tl : list string) :
  tl <> [] ->
  forallb Tags.plain tl = true ->
  Tags.parse_items (join ", " tl) = tl /\
  join ", " (Tags.parse_items (join ", " tl)) = join ", " tl.
Proof.
  intros Hne Hall.
  assert (H : Tags.parse_items (join ", " tl) = tl)
    by apply (parse_join tl Hne Hall false).
  split; [exact H | now rewrite H].
Qed.

Lemma parse_items_of_join_witness :
  Tags.parse_items (join ", " ["draft"; "act 2"; ""]) = ["draft"; "act 2"; ""] /\
  join ", " (Tags.parse_items (join ", " ["draft"; "act 2"; ""]))
  = join ", " ["draft"; "act 2"; ""].
Proof.
  apply (parse_items_of_join ["draft"; "act 2"; ""]);
    [discriminate | reflexivity].
Defined.

(** X15.  For an ASCII argument, [parse_items] returns one tag more than
    the argument has commas, so at least one, and every tag it returns is
    free of commas and of white space at both ends; in particular the
    empty argument yields the single empty tag. *)
Theorem parse_items_shape (value : string) :
  Tags.is_ascii value = true ->
  List.length (Tags.parse_items value) = S (Tags.commas value) /\
  Forall (fun t => contains "," t = false /\
                   Tags.lstrip t = t /\ Tags.rstrip t = t)
         (Tags.parse_items value).
Proof.
  intros _. unfold Tags.parse_items.
  destruct (split_comma_pieces value) as (_ & Hall & Hlen).
  split; [now rewrite length_map|].
  apply Forall_map. eapply Forall_impl; [|exact Hall].
  intros p Hp. cbn beta. split.
  - unfold Tags.strip. now apply contains_comma_rstrip, contains_comma_lstrip.
  - apply strip_stripped.
Qed.

Lemma parse_items_shape_witness :
  List.length (Tags.parse_items " a ,, b") = S (Tags.commas " a ,, b") /\
  Forall (fun t => contains "," t = false /\
                   Tags.lstrip t = t /\ Tags.rstrip t = t)
         (Tags.parse_items " a ,, b").
Proof.
  apply (parse_items_shape " a ,, b"). reflexivity.
Defined.

Example parse_items_samples :
  Tags.parse_items "draft, act 2 ,, plan" = ["draft"; "act 2"; ""; "plan"] /\
  Tags.parse_items " solo " = ["solo"] /\
  Tags.parse_items "" = [""].
Proof. repeat split; reflexivity. Qed.

(** * The day chart and the completion message *)

Section MetricsFacts.

Import Sheet Metrics.

(** The count stored for [k], 0 when there is none. *)
Lemma tally_keys (x : cell) (counter : list (cell * nat)) :
  map fst (tally x counter)
  = if existsb (cell_eqb x) (map fst counter)
    then map fst counter
    else (map fst counter ++ [x])%list.
Proof.
  induction counter as [|[k n] counter IH]; cbn [tally map fst existsb app];
    [reflexivity|].
  destruct (cell_eqb x k); cbn [map fst orb]; [reflexivity|].
  rewrite IH. now destruct (existsb (cell_eqb x) (map fst counter)).
Qed.

Lemma counter_keys (xs : list cell) :
  forall acc,
    map fst (fold_left (fun a x => tally x a) xs acc)
    = (map fst acc
         ++ filter (fun k => negb (existsb (cell_eqb k) (map fst acc)))
                   (first_seen xs))%list.
Proof.
  induction xs as [|x xs IH]; intros acc; cbn [fold_left first_seen filter].
  - now rewrite app_nil_r.
  - rewrite IH, tally_keys.
    destruct (existsb (cell_eqb x) (map fst acc)) eqn:Ex; cbn [negb].
    + f_equal. rewrite filter_and. apply filter_ext. intros y.
      destruct (cell_eqb y x) eqn:Ey; [|reflexivity].
      apply cell_eqb_eq in Ey. subst y. now rewrite Ex.
    + rewrite <- app_assoc. cbn [app]. do 2 f_equal.
      rewrite filter_and. apply filter_ext. intros y.
      rewrite existsb_snoc, negb_orb. apply andb_comm.
Qed.

Lemma tally_sum (x : cell) (counter : list (cell * nat)) :
  sum (map snd (tally x counter)) = S (sum (map snd counter)).
Proof.
  unfold sum. induction counter as [|[k n] counter IH];
    cbn [tally map snd fold_right]; [reflexivity|].
  destruct (cell_eqb x k); cbn [map snd fold_right]; [lia|].
  rewrite IH. lia.
Qed.

Lemma counter_sum (xs : list cell) :
  forall acc,
    sum (map snd (fold_left (fun a x => tally x a) xs acc))
    = sum (map snd acc) + List.length xs.
Proof.
  induction xs as [|x xs IH]; intros acc; cbn [fold_left List.length]; [lia|].
  rewrite IH, tally_sum. lia.
Qed.

Lemma tally_positive (x : cell) (counter : list (cell * nat)) :
  Forall (fun n => 1 <= n) (map snd counter) ->
  Forall (fun n => 1 <= n) (map snd (tally x counter)).
Proof.
  induction counter as [|[k n] counter IH]; cbn [tally map snd]; intros H.
  - constructor; [lia | constructor].
  - inversion H; subst.
    destruct (cell_eqb x k); cbn [map snd]; constructor; auto; lia.
Qed.

Lemma counter_positive (xs : list cell) :
  forall acc,
    Forall (fun n => 1 <= n) (map snd acc) ->
    Forall (fun n => 1 <= n) (map snd (fold_left (fun a x => tally x a) xs acc)).
Proof.
  induction xs as [|x xs IH]; intros acc H; cbn [fold_left]; [exact H|].
  apply IH. now apply tally_positive.
Qed.

Lemma counter_first_seen (xs : list cell) :
  map fst (Counter xs) = first_seen xs.
Proof.
  unfold Counter. rewrite counter_keys. cbn [map app].
  induction (first_seen xs) as [|k l IH]; [reflexivity|].
  cbn [filter existsb negb]. f_equal. exact IH.
Qed.

End MetricsFacts.

(** X16.  For a frame with a [Day] column and at least one row, the chart
    [generate_metrics] draws has one bar per distinct day, in the order in
    which the days first occur in the sheet; every bar counts at least one
    row and the bars add up to the number of rows.  The chart is saved
    and shown only when [save] is true: otherwise the call returns with
    the disk untouched and neither [savefig] nor [show] called. *)
Theorem day_chart (e : env) (savefig_err : string -> option exn)
        (df : Metrics.frame) (save : bool) (out : string)
        (st : Metrics.studio) (days : list cell) :
  Metrics.frame_column "Day" df = Ok days ->
  days <> [] ->
  let run := Metrics.generate_metrics e savefig_err df save out st in
  exists counts later,
    snd (snd run)
    = (snd st
         ++ [Metrics.Figure 10 5;
             Metrics.Bar (Sheet.first_seen days) counts "skyblue";
             Metrics.XLabel "Day of the Week"; Metrics.YLabel "Count";
             Metrics.Title "Days of the Week"]
         ++ later)%list /\
    List.length counts = List.length (Sheet.first_seen days) /\
    Metrics.sum counts = List.length days /\
    Forall (fun n => 1 <= n) counts /\
    (if save then True
     else later = [] /\ fst run = None /\ fst (snd run) = fst st).
Proof.
  intros Hdays Hne run. unfold run, Metrics.generate_metrics. rewrite Hdays.
  pose proof (counter_first_seen days) as Hk.
  pose proof (counter_sum days []) as Hs.
  pose proof (counter_positive days [] (Forall_nil _)) as Hp.
  cbn [map Metrics.sum fold_right Nat.add] in Hs.
  fold (Metrics.Counter days) in Hs, Hp.
  destruct (Metrics.Counter days) as [|kc counter] eqn:Ec.
  - destruct days as [|x days]; [now elim Hne|]. discriminate Hk.
  - rewrite <- Hk. exists (map snd (kc :: counter)).
    destruct save.
    + destruct (present _ (fst st)).
      * destruct (savefig_err _); cbn [snd]; eexists;
          (split; [rewrite <- ?app_assoc; reflexivity|]);
          rewrite !length_map; auto.
      * destruct (makedirs_err e _).
        -- cbn [snd]. exists []. rewrite app_nil_r.
           split; [reflexivity|]. rewrite !length_map. auto.
        -- destruct (savefig_err _); cbn [snd]; eexists;
             (split; [rewrite <- ?app_assoc; reflexivity|]);
             rewrite !length_map; auto.
    + cbn [snd fst]. exists []. rewrite app_nil_r.
      split; [reflexivity|]. rewrite !length_map. auto 6.
Qed.

Lemma day_chart_witness :
  let run := Metrics.generate_metrics calm Metrics.savefig_ok
               (Metrics.sheet Sheet.changing_rows) false "notes" (fresh, []) in
  exists counts later,
    snd (snd run)
    = ([]
         ++ [Metrics.Figure 10 5;
             Metrics.Bar (Sheet.first_seen
                            [Str "Monday"; Str "Monday"; Str "Friday"])
                         counts "skyblue";
             Metrics.XLabel "Day of the Week"; Metrics.YLabel "Count";
             Metrics.Title "Days of the Week"]
         ++ later)%list /\
    List.length counts
    = List.length (Sheet.first_seen [Str "Monday"; Str "Monday"; Str "Friday"]) /\
    Metrics.sum counts = 3 /\
    Forall (fun n => 1 <= n) counts /\
    (later = [] /\ fst run = None /\ fst (snd run) = fresh).
Proof.
  apply (day_chart calm Metrics.savefig_ok (Metrics.sheet Sheet.changing_rows)
                   false "notes" (fresh, [])
                   [Str "Monday"; Str "Monday"; Str "Friday"]);
    [reflexivity | discriminate].
Defined.

Example day_chart_sample :
  snd (snd (Metrics.generate_metrics calm Metrics.savefig_ok
              (Metrics.sheet Sheet.changing_rows) true "notes" (fresh, [])))
  = [Metrics.Figure 10 5;
     Metrics.Bar [Str "Monday"; Str "Friday"] [2; 1] "skyblue";
     Metrics.XLabel "Day of the Week"; Metrics.YLabel "Count";
     Metrics.Title "Days of the Week";
     Metrics.SaveFig "notes/images/days.png"; Metrics.Show].
Proof. reflexivity. Qed.

Section ScriptFacts.

Import Metrics.

Lemma generate_metrics_attempts (e : env) (savefig_err : string -> option exn)
      (df : frame) (save : bool) (out : string) (st : studio) :
  attempts (trace (fst (snd (generate_metrics e savefig_err df save out st))))
  = attempts (trace (fst st)).
Proof.
  unfold generate_metrics.
  destruct (frame_column "Day" df) as [days|ex]; [|reflexivity].
  destruct (Counter days) as [|kc counter]; [reflexivity|].
  destruct save; [|reflexivity].
  destruct (present _ (fst st)).
  - destruct (savefig_err _); reflexivity.
  - destruct (makedirs_err e _); [reflexivity|].
    destruct (savefig_err _); cbn [fst snd mkdir trace];
      rewrite attempts_app; cbn; now rewrite app_nil_r.
Qed.

End ScriptFacts.

(** X17.  The chart of a sheet without rows cannot be drawn: with the
    chart asked for, [main] on an empty sheet logs that it parsed the
    scenes into 0 chapters and that it generates files for 0 chapters, and
    then ends with the [ValueError] of the unpacking on line 230, or with
    [KeyError] when the sheet has no [Day] column; the completion line is
    never reached and nothing is plotted. *)
Theorem chart_of_empty_sheet (e : env) (savefig_err : string -> option exn)
        (input_file : string) (columns : list string) (n : option nat)
        (tags : option (list string)) (am : bool) (out : string)
        (save : bool) (st : Metrics.studio) :
  Metrics.main_script e savefig_err input_file (columns, []) n tags am out
                      true save st
  = (Some (if existsb (String.eqb "Day") columns
           then Metrics.ValueError
                  "not enough values to unpack (expected 2, got 0)"
           else Metrics.Other (KeyError "Day")),
     (emit (LogInfo "Generating .md markdown files for 0 chapters.")
        (emit (LogInfo ("Successfully parsed " ++ fmt_count n
                          ++ " scenes into 0 chapters."))
           (emit (LogInfo ("Parsing " ++ fmt_count n ++ " scenes."))
                 (fst st))),
      snd st)).
Proof.
  unfold Metrics.main_script, parse_scenes, generate_markdown_content,
    Metrics.generate_metrics, Metrics.frame_column.
  cbn [snd fst parse_rows chapters_loop List.length].
  destruct (existsb (String.eqb "Day") columns); reflexivity.
Qed.

(** X18.  When [main] runs to its end, the last thing it logs and prints
    is the completion line, and the number of files it names there is the
    number of distinct chapter keys of the sheet.  The number of files
    [open] was called for is never above that number; it can be below it,
    since a fault while composing or creating the directory stops the
    chapter loop without stopping [main]. *)
Theorem completion_line (e : env) (savefig_err : string -> option exn)
        (input_file : string) (df : Metrics.frame) (n : option nat)
        (tags : option (list string)) (am : bool) (out : string)
        (with_chart save : bool) (st : Metrics.studio) :
  let run := Metrics.main_script e savefig_err input_file df n tags am out
                                 with_chart save st in
  fst run = None ->
  exists tr docs,
    let msg := "Script complete. Excel file: '" ++ input_file
                 ++ "' converted to "
                 ++ dec (List.length (distinct_keys (snd df)))
                 ++ " .md files." in
    trace (fst (snd run)) = (tr ++ [LogInfo msg; Print msg])%list /\
    attempts (trace (fst (snd run)))
    = (attempts (trace (fst st)) ++ docs)%list /\
    List.length docs <= List.length (distinct_keys (snd df)).
Proof.
  intros run. unfold run, Metrics.main_script, parse_scenes.
  destruct (parse_rows (snd df) []) as [d|ex] eqn:Ep; [|discriminate].
  set (w0 := emit _ (emit _ (fst st))).
  destruct (generate_attempts e d tags out am w0)
    as (docs & rest & Hatt & Hpaths).
  destruct (generate_markdown_content e (Some d) tags out am w0)
    as [[u|ex] w1]; [|discriminate].
  cbn [snd] in Hatt.
  assert (Hw0 : attempts (trace w0) = attempts (trace (fst st))).
  { unfold w0. now rewrite !attempts_emit_log by exact I. }
  assert (Hlen : List.length docs <= List.length (distinct_keys (snd df))).
  { rewrite <- (aggregated_count _ _ (parse_rows_aggregated _ _ Ep)).
    apply (f_equal (@List.length _)) in Hpaths.
    rewrite length_app, !length_map in Hpaths. lia. }
  assert (Hd : List.length d = List.length (distinct_keys (snd df)))
    by apply (aggregated_count _ _ (parse_rows_aggregated _ _ Ep)).
  destruct with_chart.
  - pose proof (generate_metrics_attempts e savefig_err df save out (w1, snd st))
      as Hm.
    destruct (Metrics.generate_metrics e savefig_err df save out (w1, snd st))
      as [[err|] st1]; [discriminate|].
    cbn [fst snd] in *. intros _. rewrite Hd.
    exists (trace (fst st1) ++ [])%list, docs. cbn zeta.
    cbn [emit trace]. rewrite !attempts_app, Hm, Hatt, Hw0.
    cbn [attempts flat_map app]. rewrite !app_nil_r, <- app_assoc.
    split; [reflexivity|]. split; [reflexivity | exact Hlen].
  - cbn [fst snd]. intros _. rewrite Hd.
    exists (trace w1 ++ [])%list, docs. cbn zeta.
    cbn [emit trace]. rewrite !attempts_app, Hatt, Hw0.
    cbn [attempts flat_map app]. rewrite !app_nil_r, <- app_assoc.
    split; [reflexivity|]. split; [reflexivity | exact Hlen].
Qed.

Lemma completion_line_witness :
  let run := Metrics.main_script calm Metrics.savefig_ok "plan.xlsx"
               (Metrics.sheet room_rows) (Some 2) (Some ["draft"]) false
               "notes" false false (fresh, []) in
  exists tr docs,
    let msg := "Script complete. Excel file: '" ++ "plan.xlsx"
                 ++ "' converted to "
                 ++ dec (List.length (distinct_keys room_rows))
                 ++ " .md files." in
    trace (fst (snd run)) = (tr ++ [LogInfo msg; Print msg])%list /\
    attempts (trace (fst (snd run)))
    = (attempts (trace fresh) ++ docs)%list /\
    List.length docs <= List.length (distinct_keys room_rows).
Proof.
  apply (completion_line calm Metrics.savefig_ok "plan.xlsx"
           (Metrics.sheet room_rows) (Some 2) (Some ["draft"]) false "notes"
           false false (fresh, [])).
  reflexivity.
Defined.

(** Two chapters, the second one with a number as location: one file is
    written, the completion line says two. *)
Example overstated_completion :
  let run := Metrics.main_script calm Metrics.savefig_ok "plan.xlsx"
               (Metrics.sheet room_rows) (Some 2) (Some ["draft"]) false
               "notes" false false (fresh, []) in
  fst run = None /\
  List.length (written (trace (fst (snd run)))) = 1 /\
  last (trace (fst (snd run))) (Print "")
  = Print "Script complete. Excel file: 'plan.xlsx' converted to 2 .md files.".
Proof. vm_compute. repeat split. Qed.

(** * More on locations and on the folder *)

Section PieceFacts.

Lemma prefix_app_l (x p rest : string) :
  prefix x p = true -> prefix x (p ++ rest) = true.
Proof.
  revert p. induction x as [|a x IH]; intros p H.
  - now destruct (p ++ rest).
  - destruct p as [|b p]; [discriminate H|].
    cbn [append prefix] in *.
    destruct (ascii_dec a b); [now apply IH | discriminate H].
Qed.

(** The piece in progress is the beginning of the text. *)
Lemma split_from_prefix (sep s : string) :
  exists rest, s = fst (split_from sep 0 s) ++ rest.
Proof.
  induction s as [|c s [rest IH]].
  - now exists "".
  - cbn [split_from]. destruct (prefix sep (String c s)).
    + destruct (split_from sep (String.length sep - 1) s).
      now exists (String c s).
    + destruct (split_from sep 0 s) as [p ps]. cbn [fst] in *.
      exists rest. cbn [append]. now rewrite <- IH.
Qed.

Lemma contains_tail (x : string) (c : ascii) (s : string) :
  contains x s = true -> contains x (String c s) = true.
Proof. intros H. cbn [contains]. rewrite H. apply orb_true_r. Qed.

(** A text that occurs in a piece occurs in the text that was cut. *)
Lemma split_from_pieces (sep x : string) (a : ascii) (s : string) :
  forall skip,
    Forall (fun p => contains (String a x) p = true ->
                     contains (String a x) s = true)
           (fst (split_from sep skip s) :: snd (split_from sep skip s)).
Proof.
  induction s as [|c s IH]; intros skip.
  - cbn. constructor; [auto | constructor].
  - cbn [split_from]. destruct skip as [|k].
    + destruct (prefix sep (String c s)).
      * specialize (IH (String.length sep - 1)).
        destruct (split_from sep (String.length sep - 1) s) as [p ps].
        cbn [fst snd] in *. constructor; [discriminate|].
        eapply Forall_impl; [|exact IH].
        intros q Hq Hc. apply contains_tail. now apply Hq.
      * pose proof (split_from_prefix sep s) as [rest Hrest].
        specialize (IH 0).
        destruct (split_from sep 0 s) as [p ps]. cbn [fst snd] in *.
        apply Forall_cons_iff in IH. destruct IH as [Hp Hps]. constructor.
        -- intros Hc. cbn [contains] in *. apply orb_true_iff in Hc.
           apply orb_true_iff. destruct Hc as [Hc|Hc]; [left | right; auto].
           rewrite Hrest. change (String c (p ++ rest)) with (String c p ++ rest).
           now apply prefix_app_l.
        -- eapply Forall_impl; [|exact Hps].
           intros q Hq Hc. apply contains_tail. now apply Hq.
    + specialize (IH k). destruct (split_from sep k s) as [p ps].
      cbn [fst snd] in *. eapply Forall_impl; [|exact IH].
      intros q Hq Hc. apply contains_tail. now apply Hq.
Qed.

Lemma split_pieces_free (sep x : string) (a : ascii) (s : string) :
  contains (String a x) s = false ->
  Forall (fun p => contains (String a x) p = false) (split sep s).
Proof.
  intros H. unfold split.
  pose proof (split_from_pieces sep x a s 0) as Hall.
  destruct (split_from sep 0 s) as [p ps]. cbn [fst snd] in Hall.
  eapply Forall_impl; [|exact Hall].
  intros q Hq. cbn beta in Hq.
  destruct (contains (String a x) q); [|reflexivity].
  rewrite (Hq eq_refl) in H. discriminate H.
Qed.

End PieceFacts.

(** X19.  A location text without [" - "] is rendered with first-level
    bullets only: one for each part between the [". "] separators, in
    order, holding that part unchanged. *)
Theorem setting_without_dash (location : string) :
  contains " - " location = false ->
  setting_bullets location = map Major (split ". " location).
Proof.
  intros H. unfold setting_bullets.
  pose proof (split_pieces_free ". " _ _ location H) as Hall.
  induction Hall as [|p ps Hp _ IH]; cbn [flat_map map]; [reflexivity|].
  rewrite IH. unfold subpart_bullets. now rewrite (split_absent _ _ Hp).
Qed.

Lemma setting_without_dash_witness :
  setting_bullets "Hall. Yard, east. Gym"
  = map Major (split ". " "Hall. Yard, east. Gym").
Proof.
  apply (setting_without_dash "Hall. Yard, east. Gym"). reflexivity.
Defined.

Section FolderFacts.

Import Words Ranking.

Lemma csv_rows_filter (folder : list csv_file) :
  csv_rows folder = csv_rows (filter is_csv folder).
Proof.
  unfold csv_rows, is_csv. induction folder as [|f folder IH];
    cbn [flat_map filter]; [reflexivity|].
  destruct (endswith (fst f) ".csv") eqn:E; cbn [flat_map].
  - now rewrite E, IH.
  - exact IH.
Qed.

Lemma filter_perm (A : Type) (p : A -> bool) (l l' : list A) :
  Permutation l l' -> Permutation (filter p l) (filter p l').
Proof.
  induction 1 as [|x l l' _ IH|x y l|l l' l'' _ IH1 _ IH2]; cbn [filter].
  - constructor.
  - destruct (p x); [now constructor | exact IH].
  - destruct (p x), (p y); try reflexivity. apply perm_swap.
  - now transitivity (filter p l').
Qed.

Lemma sum_perm (l l' : list Z) :
  Permutation l l' -> fold_right Z.add 0%Z l = fold_right Z.add 0%Z l'.
Proof.
  induction 1 as [|x l l' _ IH|x y l|l l' l'' _ IH1 _ IH2]; cbn [fold_right];
    [reflexivity | now rewrite IH | lia | congruence].
Qed.

Lemma total_perm (word : string) (es es' : list (string * Z)) :
  Permutation es es' -> total word es = total word es'.
Proof.
  intros H. unfold total.
  pose proof (filter_perm _ (fun e => String.eqb word (fst e)) _ _ H) as Hf.
  destruct (filter _ es) as [|h hits].
  - apply Permutation_nil in Hf. now rewrite Hf.
  - destruct (filter _ es') as [|h' hits'] eqn:E.
    + symmetry in Hf. apply Permutation_nil in Hf. discriminate Hf.
    + f_equal. apply sum_perm. now apply Permutation_map.
Qed.

End FolderFacts.

(** X20.  The totals depend neither on the order in which [os.listdir]
    hands out the files nor on the entries whose name does not end in
    [.csv]: two folders with the same [.csv] files, in any order, give
    every word the same total. *)
Theorem totals_ignore_order (py_int : string -> option Z)
        (folder folder' : list Words.csv_file) (word : string) :
  Permutation (filter Ranking.is_csv folder) (filter Ranking.is_csv folder') ->
  Words.lookup word (fst (Words.read_csv_files py_int folder))
  = Words.lookup word (fst (Words.read_csv_files py_int folder')).
Proof.
  intros H. unfold Words.read_csv_files. rewrite !read_files_spec.
  cbn [fst]. rewrite !lookup_apply_entries. cbn [Words.lookup].
  apply total_perm.
  rewrite (csv_rows_filter folder), (csv_rows_filter folder').
  unfold Words.entries, Words.csv_rows.
  now apply Permutation_flat_map, Permutation_flat_map.
Qed.

Lemma totals_ignore_order_witness :
  Words.lookup "cat" (fst (Words.read_csv_files Words.int_decimal
                             Words.sample_folder))
  = Words.lookup "cat"
      (fst (Words.read_csv_files Words.int_decimal
              [("two.csv", [["cat"; "2"]]);
               ("one.csv", [["the"; "3"]; ["cat"; "many"]; ["the"; "4"];
                            ["lonely"]; ["a"; "1"; "extra"]])])).
Proof.
  apply (totals_ignore_order Words.int_decimal Words.sample_folder).
  cbn. apply perm_swap.
Defined.

Section SceneCount.

Import Sheet.

Lemma scene_total_update (k : cell) (f : chapter_data -> chapter_data)
      (d : chapters) (c : chapter_data) :
  (forall x, List.length (scenes (f x)) = S (List.length (scenes x))) ->
  dict_get k d = Some c ->
  scene_total (dict_update k f d) = S (scene_total d).
Proof.
  intros Hf. unfold scene_total.
  induction d as [|[k0 v0] d IH]; cbn [dict_get dict_update]; [discriminate|].
  destruct (cell_eqb k k0); cbn [map list_sum fold_right snd].
  - intros _. rewrite Hf. cbn [Nat.add]. reflexivity.
  - intros H. fold (list_sum (map (fun kc => List.length (scenes (snd kc)))
                                   (dict_update k f d))).
    rewrite (IH H). apply Nat.add_succ_r.
Qed.

Lemma scene_total_ensure (k : cell) (d : chapters) :
  scene_total (ensure_chapter k d) = scene_total d /\
  exists c, dict_get k (ensure_chapter k d) = Some c.
Proof.
  unfold ensure_chapter, scene_total. destruct (dict_get k d) as [c|] eqn:E.
  - split; [reflexivity | now exists c].
  - split.
    + rewrite map_app, list_sum_app. cbn. lia.
    + exists new_chapter. rewrite dict_get_app, E. now rewrite cell_eqb_refl.
Qed.

Lemma parse_row_scene_total (r : row) (d d' : chapters) :
  parse_row r d = Ok d' -> scene_total d' = S (scene_total d).
Proof.
  intros H. apply parse_row_ok in H.
  destruct H as (wk & ar & ch & st & un & tm & we & dy & ds & pv & tp & _ & ->).
  destruct (scene_total_ensure ch d) as [Hs [c Hc]].
  rewrite (scene_total_update ch _ _ c); [now rewrite Hs | | exact Hc].
  intros x. cbn [add_scene scenes]. now rewrite last_length.
Qed.

End SceneCount.

(** X21.  Every row becomes exactly one scene: the scene lists of the
    chapters of the dict hold, taken together, as many scenes as the sheet
    has rows. *)
Theorem every_row_one_scene (df : list row) (d0 d : chapters) :
  parse_rows df d0 = Ok d ->
  Sheet.scene_total d = Sheet.scene_total d0 + List.length df.
Proof.
  revert d0. induction df as [|r df IH]; intros d0 H; cbn [parse_rows] in H.
  - inversion H. cbn. lia.
  - destruct (parse_row r d0) as [d1|ex] eqn:E; [|discriminate H].
    cbn [bind] in H. rewrite (IH _ H), (parse_row_scene_total _ _ _ E).
    cbn [List.length]. lia.
Qed.

Lemma every_row_one_scene_witness :
  exists d,
    parse_rows Sheet.interleaved_rows [] = Ok d /\
    Sheet.scene_total d = Sheet.scene_total [] + 5.
Proof.
  eexists. split; [reflexivity|].
  apply (every_row_one_scene Sheet.interleaved_rows [] _ eq_refl).
Defined.
